(** * Fine-tuning loop of the question-answering model ([train.py])

    A shallow embedding of [run], [train] and [inference], and the
    properties of the training loop: gradient accumulation, periodic
    evaluation, best-model checkpointing, early stopping and the halt on
    a not-a-number loss.

    Python [int]s are [Z], Python and NumPy floats are IEEE binary64
    ([PrimFloat.float]).  Everything [train.py] imports (the model, the
    optimizer, the scheduler, the datasets, NumPy, the logger, the file
    system) is outside the file: each call into it is recorded, in
    program order, as an [event], and what such a call returns is given
    by a function of the events recorded so far. *)

From Stdlib Require Import String Ascii ZArith List Bool Lia Permutation.
From Stdlib Require Import Floats.
Import ListNotations.
Open Scope Z_scope.

(** ** Python values *)

(** [a % b] on Python integers: the result has the sign of the divisor,
    as [Z.modulo] has, and a zero divisor raises [ZeroDivisionError]. *)
Definition py_mod (a b : Z) : option Z :=
  if b =? 0 then None else Some (a mod b).

(** [range(n)]: empty when [n <= 0]. *)
Definition py_range (n : Z) : list Z :=
  map Z.of_nat (seq 0 (Z.to_nat n)).

(** [sub in s] on Python strings: [sub] occurs in [s] as a substring. *)
Fixpoint str_in (sub s : string) : bool :=
  if String.prefix sub s then true
  else match s with
       | EmptyString => false
       | String _ s' => str_in sub s'
       end.

(** The exceptions the embedded code can raise by itself. *)
Inductive exn : Type :=
| ZeroDivisionError
| UnboundLocalError (name : string)
| AttributeError (attr : string).

(** Non-decreasing order on scores: equal, or strictly below under the
    IEEE comparison (which is false as soon as one side is NaN). *)
Definition float_le (a b : float) : Prop :=
  a = b \/ (a <? b)%float = true.

(** ** Command-line arguments, as far as [train.py] reads them *)

Module Args.
Record t : Type := mk {
  train_file : string;
  predict_file : string;
  output_dir : string;
  do_train : bool;
  do_predict : bool;
  weight_decay : float;
  learning_rate : float;
  adam_epsilon : float;
  warmup_steps : Z;
  num_train_epochs : Z;
  gradient_accumulation_steps : Z;
  max_grad_norm : float;
  eval_period : Z;
  n_gpu : Z;
  wait_step : Z;
  num_beams : Z;
  max_output_length : Z
}.
End Args.

Inductive Device : Type := Cuda | Cpu.

(** ** Data owned by the collaborators *)

Class Data : Type := {
  tensor_data : Type;   (* contents of a tensor *)
  Model : Type;         (* a model object *)
  outputs : Type;       (* what [model.generate] returns *)
  prediction : Type;    (* what [decode_batch] returns *)
  parameter : Type      (* a trainable parameter *)
}.

Section Calls.

Context {D : Data}.

Record tensor : Type := mkTensor {
  device_of : Device;
  data_of : tensor_data
}.

(** [v.cpu()] *)
Definition cpu (v : tensor) : tensor := mkTensor Cpu (data_of v).

(** A batch is indexed [batch[0]] .. [batch[3]]. *)
Record batch : Type := mkBatch {
  input_ids : tensor;
  attention_mask : tensor;
  decoder_input_ids : tensor;
  decoder_attention_mask : tensor
}.

(** The part of a [QAData] object that [train.py] reads. *)
Record QAData : Type := mkQAData {
  qa_args : Args.t;
  dataloader : list batch;
  metric : string;
  data_type : string
}.

(** *** Calls into the collaborators *)

(** The arguments of the calls to [logger.info]. *)
Inductive log_msg : Type :=
| LogStartingTraining
| LogStopTraining (loss : float)
| LogStep (global_step : Z) (train_loss : float) (metric : string)
          (score_pct : float) (epoch : Z)
| LogSavingModel (metric : string) (old_pct new_pct : float)
                 (epoch global_step : Z)
| LogLoadingCheckpoint (path : string)
| LogResult (metric data_type : string) (pct : float).

Record param_group : Type := mkGroup {
  params : list parameter;
  group_weight_decay : float
}.

Inductive event : Type :=
| ETokenizerFromPretrained (name : string)
| ENewQAData (file : string)
| ELoadDataset (file : string)
| ELoadDataloader (file : string)
| EModelFromPretrained (name : string)
| EModelTo (d : Device)
| ENewAdamW (groups : list param_group) (lr eps : float)
| ENewLinearSchedule (num_warmup_steps num_training_steps : Z)
| EModelTrain
| EModelEval
| ELoggerInfo (m : log_msg)
| EBatchTo (b : batch) (d : Device)
| EForward (b : batch) (is_training : bool) (loss : float)
| EBackward (loss : float)
| EClipGradNorm (max_norm : float)
| EOptimizerStep
| ESchedulerStep
| EZeroGrad
| EGenerate (m : Model) (ids mask : tensor) (num_beams max_length : Z)
            (early_stopping : bool) (out : outputs)
| EDecodeBatch (out : outputs)
| ESavePredictions (predictions : list prediction)
| EEvaluate (predictions : list prediction)
| ETorchSave (obj : list (string * tensor)) (path : string)
| ELoadStateDict (path : string).

End Calls.

(** What the collaborators answer.  The model, the optimizer and the
    data sets carry state of their own, so an answer may depend on
    every call made before. *)
Class Collaborators {D : Data} : Type := {
  cuda_is_available : bool;
  (* [model(..., is_training=True)] *)
  forward_loss : list event -> batch -> float;
  (* [model.generate(input_ids, attention_mask, num_beams, max_length,
     early_stopping)] *)
  generate :
    list event -> Model -> tensor -> tensor -> Z -> Z -> bool -> outputs;
  decode_batch : outputs -> prediction;
  evaluate : list prediction -> list float;
  np_mean : list float -> float;
  (* [model.state_dict().items()] *)
  state_dict : list event -> list (string * tensor);
  named_parameters : Model -> list (string * parameter);
  (* the attribute [.module]; [None] when the object has none *)
  module : Model -> option Model;
  os_path_join : string -> string -> string;
  (* [t5model.from_pretrained] *)
  from_pretrained : string -> Model;
  (* [QAData(logger, args, file)] *)
  new_QAData : Args.t -> string -> QAData
}.

Section TrainPy.

Context {D : Data} {C : Collaborators}.

(** [torch.device("cuda" if torch.cuda.is_available() else "cpu")] *)
Definition torch_device : Device :=
  if cuda_is_available then Cuda else Cpu.

(** *** [inference] *)

(** The loop over [dev_data.dataloader]: [h] holds the calls made
    before [inference] was entered, [evs] the calls made since, and
    [predictions] is the local list of that name. *)
Fixpoint inference_loop (model : Model) (dev_data : QAData)
         (bs : list batch) (h evs : list event)
         (predictions : list prediction)
  : list event * list prediction :=
  match bs with
  | [] => (evs, predictions)
  | b :: bs' =>
      let evs1 := evs ++ [EBatchTo b torch_device] in
      let nb := Args.num_beams (qa_args dev_data) in
      let ml := Args.max_output_length (qa_args dev_data) in
      let out := generate (h ++ evs1) model (input_ids b)
                          (attention_mask b) nb ml true in
      let evs2 := evs1 ++ [EGenerate model (input_ids b)
                                     (attention_mask b) nb ml true out] in
      let pred := decode_batch out in
      inference_loop model dev_data bs' h (evs2 ++ [EDecodeBatch out])
                     (predictions ++ [pred])
  end.

(** The default of the keyword parameter [save_predictions]. *)
Definition save_predictions_default : bool := true.

(** [inference(model, dev_data, save_predictions)], entered after the
    calls [h]: the calls it makes and the value it returns. *)
Definition inference (model : Model) (dev_data : QAData)
           (save_predictions : bool) (h : list event)
  : list event * float :=
  let '(evs, predictions) :=
    inference_loop model dev_data (dataloader dev_data) h [] [] in
  let evs := if save_predictions
             then evs ++ [ESavePredictions predictions]
             else evs in
  (evs ++ [EEvaluate predictions], np_mean (evaluate predictions)).

(** *** [train] *)

(** The local variables of [train] that change, and the calls made so
    far, each stamped with the value [global_step] had when it was
    made.  [wait_step] is [None] as long as the name is unbound. *)
Record state : Type := mkState {
  global_step : Z;
  train_losses : list float;
  best_accuracy : float;
  stop_training : bool;
  wait_step : option Z;
  trace : list (Z * event)
}.

Definition set_global_step (g : Z) (st : state) : state :=
  mkState g (train_losses st) (best_accuracy st) (stop_training st)
          (wait_step st) (trace st).
Definition set_train_losses (l : list float) (st : state) : state :=
  mkState (global_step st) l (best_accuracy st) (stop_training st)
          (wait_step st) (trace st).
Definition set_best_accuracy (a : float) (st : state) : state :=
  mkState (global_step st) (train_losses st) a (stop_training st)
          (wait_step st) (trace st).
Definition set_stop_training (b : bool) (st : state) : state :=
  mkState (global_step st) (train_losses st) (best_accuracy st) b
          (wait_step st) (trace st).
Definition set_wait_step (w : Z) (st : state) : state :=
  mkState (global_step st) (train_losses st) (best_accuracy st)
          (stop_training st) (Some w) (trace st).

(** A call is recorded under the current [global_step]. *)
Definition emit (e : event) (st : state) : state :=
  mkState (global_step st) (train_losses st) (best_accuracy st)
          (stop_training st) (wait_step st)
          (trace st ++ [(global_step st, e)]).

Definition emit_all (evs : list event) (st : state) : state :=
  fold_left (fun s e => emit e s) evs st.

(** How a loop body ends: it falls through to the next iteration,
    executes [break], or raises. *)
Inductive outcome : Type :=
| Normal (st : state)
| Broke (st : state)
| Raised (e : exn) (st : state).

Definition state_of (o : outcome) : state :=
  match o with
  | Normal st | Broke st | Raised _ st => st
  end.

Section Train.

Variable args : Args.t.
Variable model : Model.
Variable train_data dev_data : QAData.
Variable h0 : list event.   (* the calls made before [train] is entered *)

(** The calls made so far, as the collaborators see them. *)
Definition history (st : state) : list event := h0 ++ map snd (trace st).

(** Lines 79-101: the body of [if global_step % args.eval_period == 0]. *)
Definition evaluation (epoch : Z) (st : state) : outcome :=
  let st := emit EModelEval st in
  match (if Args.n_gpu args =? 1 then Some model else module model) with
  | None => Raised (AttributeError "module") st
  | Some m =>
      let '(evs, curr_em) :=
        inference m dev_data save_predictions_default (history st) in
      let st := emit_all evs st in
      let st := emit (ELoggerInfo
                        (LogStep (global_step st)
                                 (np_mean (train_losses st))
                                 (metric dev_data)
                                 (curr_em * 100)%float
                                 epoch)) st in
      let st := set_train_losses [] st in
      if (best_accuracy st <? curr_em)%float then
        let model_state_dict :=
          map (fun kv => (fst kv, cpu (snd kv)))
              (state_dict (history st)) in
        let st := emit (ETorchSave
                          model_state_dict
                          (os_path_join (Args.output_dir args)
                                        "best-model.pt")) st in
        let st := emit (ELoggerInfo
                          (LogSavingModel (metric dev_data)
                                          (best_accuracy st * 100)%float
                                          (curr_em * 100)%float
                                          epoch (global_step st))) st in
        let st := set_best_accuracy curr_em st in
        let st := set_wait_step 0 st in
        let st := set_stop_training false st in
        Normal (emit EModelTrain st)
      else
        match wait_step st with
        | None => Raised (UnboundLocalError "wait_step") st
        | Some w =>
            let st := set_wait_step (w + 1) st in
            if w + 1 >=? Args.wait_step args then
              Broke (set_stop_training true st)
            else
              Normal (emit EModelTrain st)
        end
  end.

(** Lines 58-101: the body of [for batch in train_data.dataloader]. *)
Definition train_batch (epoch : Z) (b : batch) (st : state) : outcome :=
  let st := set_global_step (global_step st + 1) st in
  let st := emit (EBatchTo b torch_device) st in
  let loss := forward_loss (history st) b in
  let st := emit (EForward b true loss) st in
  if is_nan loss then
    let st := emit (ELoggerInfo (LogStopTraining loss)) st in
    Broke (set_stop_training true st)
  else
    let st := set_train_losses (train_losses st ++ [loss]) st in
    let st := emit (EBackward loss) st in
    match py_mod (global_step st)
                 (Args.gradient_accumulation_steps args) with
    | None => Raised ZeroDivisionError st
    | Some r =>
        let st :=
          if r =? 0 then
            let st := emit (EClipGradNorm (Args.max_grad_norm args)) st in
            let st := emit EOptimizerStep st in
            let st := emit ESchedulerStep st in
            emit EZeroGrad st
          else st in
        match py_mod (global_step st) (Args.eval_period args) with
        | None => Raised ZeroDivisionError st
        | Some r' =>
            if r' =? 0 then evaluation epoch st else Normal st
        end
    end.

(** Line 57: the loop over the batches of one epoch. *)
Fixpoint for_batches (epoch : Z) (bs : list batch) (st : state)
  : outcome :=
  match bs with
  | [] => Normal st
  | b :: bs' =>
      match train_batch epoch b st with
      | Normal st' => for_batches epoch bs' st'
      | Broke st' => Broke st'
      | Raised e st' => Raised e st'
      end
  end.

(** Lines 56-103: the loop over the epochs, with the test of
    [stop_training] after the inner loop. *)
Fixpoint for_epochs (epochs : list Z) (st : state) : outcome :=
  match epochs with
  | [] => Normal st
  | epoch :: epochs' =>
      match for_batches epoch (dataloader train_data) st with
      | Raised e st' => Raised e st'
      | Normal st' | Broke st' =>
          if stop_training st' then Broke st' else for_epochs epochs' st'
      end
  end.

(** How a call of [train] ends. *)
Inductive result : Type :=
| Returned (st : state)
| Failed (e : exn) (st : state).

Definition final (r : result) : state :=
  match r with
  | Returned st | Failed _ st => st
  end.

(** Lines 48-55: the state in which the loops are entered. *)
Definition initial_state : state :=
  mkState 0 [] (-1)%float false None
          [(0, EModelTrain); (0, ELoggerInfo LogStartingTraining)].

Definition train : result :=
  match for_epochs (py_range (Args.num_train_epochs args))
                   initial_state with
  | Normal st | Broke st => Returned st
  | Raised e st => Failed e st
  end.

End Train.

(** *** [run] *)

Definition no_decay : list string := ["bias"; "LayerNorm.weight"]%string.

(** [any(nd in n for nd in no_decay)] *)
Definition any_no_decay (n : string) : bool :=
  existsb (fun nd => str_in nd n) no_decay.

(** Lines 29-32: the two parameter groups handed to [AdamW]. *)
Definition optimizer_grouped_parameters (args : Args.t) (model : Model)
  : list param_group :=
  [ mkGroup (map snd (filter (fun np => negb (any_no_decay (fst np)))
                             (named_parameters model)))
            (Args.weight_decay args);
    mkGroup (map snd (filter (fun np => any_no_decay (fst np))
                             (named_parameters model)))
            0%float ].

(** How a call of [run] ends, with the calls it made. *)
Inductive run_result : Type :=
| RunReturned (h : list event)
| RunFailed (e : exn) (h : list event).

Definition calls (r : run_result) : list event :=
  match r with
  | RunReturned h | RunFailed _ h => h
  end.

(** [run(args, logger)].  [new_QAData args file] is the data set as it
    is once [load_dataset] and [load_dataloader] have been called. *)
Definition run (args : Args.t) : run_result :=
  let h := [ETokenizerFromPretrained "t5-large";
            ENewQAData (Args.train_file args);
            ENewQAData (Args.predict_file args)] in
  let train_data := new_QAData args (Args.train_file args) in
  let dev_data := new_QAData args (Args.predict_file args) in
  let h := h ++ [ELoadDataset (Args.train_file args);
                 ELoadDataloader (Args.train_file args);
                 ELoadDataset (Args.predict_file args);
                 ELoadDataloader (Args.predict_file args)] in
  let model := from_pretrained "t5-large" in
  let h := h ++ [EModelFromPretrained "t5-large"; EModelTo torch_device] in
  let trained :=
    if Args.do_train args then
      let h := h ++ [ENewAdamW (optimizer_grouped_parameters args model)
                               (Args.learning_rate args)
                               (Args.adam_epsilon args);
                     ENewLinearSchedule (Args.warmup_steps args) 100000] in
      match train args model train_data dev_data h with
      | Returned st => inl (h ++ map snd (trace st))
      | Failed e st => inr (e, h ++ map snd (trace st))
      end
    else inl h in
  match trained with
  | inr (e, h) => RunFailed e h
  | inl h =>
      if Args.do_predict args then
        let checkpoint :=
          os_path_join (Args.output_dir args) "best-model.pt" in
        let h := h ++ [ELoggerInfo (LogLoadingCheckpoint checkpoint);
                       EModelEval] in
        let '(evs, ems) := inference model dev_data true h in
        let h := h ++ evs in
        RunReturned
          (h ++ [ELoggerInfo (LogResult (metric dev_data)
                                        (data_type dev_data)
                                        (np_mean [ems] * 100)%float)])
      else RunReturned h
  end.

(** The calls [run] makes before it looks at [args.do_train]. *)
Definition setup_calls (args : Args.t) : list event :=
  [ETokenizerFromPretrained "t5-large";
   ENewQAData (Args.train_file args);
   ENewQAData (Args.predict_file args);
   ELoadDataset (Args.train_file args);
   ELoadDataloader (Args.train_file args);
   ELoadDataset (Args.predict_file args);
   ELoadDataloader (Args.predict_file args);
   EModelFromPretrained "t5-large";
   EModelTo torch_device].

End TrainPy.

(** ** Reading a run off its trace *)

Section Observations.

Context {D : Data} {C : Collaborators}.

(** The calls made while [global_step] was [g], in program order. *)
Definition calls_at (g : Z) (tr : list (Z * event)) : list event :=
  map snd (filter (fun x => fst x =? g) tr).

(** The calls made while [global_step] was below [g]. *)
Definition calls_before (g : Z) (tr : list (Z * event))
  : list (Z * event) :=
  filter (fun x => fst x <? g) tr.

(** [g] is a multiple of [n], as [g % n == 0] tests it. *)
Definition is_multiple (g n : Z) : bool :=
  match py_mod g n with
  | Some r => r =? 0
  | None => false
  end.

(** What [inference] returns once [dev_data.evaluate] was called on
    [predictions]. *)
Definition score_of (predictions : list prediction) : float :=
  np_mean (evaluate predictions).

(** What an evaluation does to the best score so far. *)
Definition better (best : float) (e : event) : float :=
  match e with
  | EEvaluate ps =>
      if (best <? score_of ps)%float then score_of ps else best
  | _ => best
  end.

(** The best score among the evaluations of a trace, counted from -1. *)
Definition best_so_far (tr : list (Z * event)) : float :=
  fold_left better (map snd tr) (-1)%float.

(** What a call does to the losses on record: a forward pass adds its
    loss unless that is not-a-number, the log line of an evaluation
    empties the record. *)
Definition record_loss (acc : list float) (e : event) : list float :=
  match e with
  | EForward _ _ loss => if is_nan loss then acc else acc ++ [loss]
  | ELoggerInfo (LogStep _ _ _ _ _) => []
  | _ => acc
  end.

(** The losses of the forward passes since the last evaluation log,
    the not-a-number ones left out. *)
Definition recorded_losses (tr : list (Z * event)) : list float :=
  fold_left record_loss (map snd tr) [].

(** The calls [inference] makes for the batches [bs] when
    [model.generate] answers [outs]: per batch, the move to the device,
    the generation and the decoding. *)
Definition generation_calls (m : Model) (dev_data : QAData)
           (bs : list batch) (outs : list outputs) : list event :=
  concat
    (map (fun bo =>
            [EBatchTo (fst bo) torch_device;
             EGenerate m (input_ids (fst bo)) (attention_mask (fst bo))
                       (Args.num_beams (qa_args dev_data))
                       (Args.max_output_length (qa_args dev_data))
                       true (snd bo);
             EDecodeBatch (snd bo)])
         (combine bs outs)).

(** The calls a loop body made: what its final trace adds to the trace
    it started with. *)
Definition emitted (st : state) (o : outcome) : list event :=
  map snd (skipn (List.length (trace st)) (trace (state_of o))).

Section Run.

Variable args : Args.t.
Variable model : Model.
Variable dev_data : QAData.
Variable h0 : list event.

(** [model if args.n_gpu==1 else model.module]; [None] when the
    attribute is missing. *)
Definition eval_model : option Model :=
  if Args.n_gpu args =? 1 then Some model else module model.

(** The calls of a forward pass on [b] that returned [loss]. *)
Definition forward_calls (b : batch) (loss : float) : list event :=
  [EBatchTo b torch_device; EForward b true loss].

(** The calls of lines 73-76 at step [g]: all four when [g] is a
    multiple of [args.gradient_accumulation_steps], none otherwise. *)
Definition update_calls (g : Z) : list event :=
  if is_multiple g (Args.gradient_accumulation_steps args) then
    [EClipGradNorm (Args.max_grad_norm args);
     EOptimizerStep; ESchedulerStep; EZeroGrad]
  else [].

(** The calls of lines 79-86 at step [g], when generation on the dev
    batches answered [outs] and the mean of the loss buffer was
    [train_loss]. *)
Definition evaluation_calls (m : Model) (outs : list outputs)
           (train_loss : float) (epoch g : Z) : list event :=
  [EModelEval]
    ++ generation_calls m dev_data (dataloader dev_data) outs
    ++ [ESavePredictions (map decode_batch outs);
        EEvaluate (map decode_batch outs);
        ELoggerInfo (LogStep g train_loss (metric dev_data)
                             (score_of (map decode_batch outs) * 100)%float
                             epoch)].

(** The calls of lines 89-92 at step [g], made after the calls [h]. *)
Definition checkpoint_calls (h : list event) (best curr : float)
           (epoch g : Z) : list event :=
  [ETorchSave (map (fun kv => (fst kv, cpu (snd kv))) (state_dict h))
              (os_path_join (Args.output_dir args) "best-model.pt");
   ELoggerInfo (LogSavingModel (metric dev_data)
                               (best * 100)%float (curr * 100)%float
                               epoch g)].

(** The nine ways one iteration of the inner loop can go, from the
    state [st], with the state it ends in written out.  [g] is the new
    value of [global_step]. *)
Inductive iteration (epoch : Z) (b : batch) (st : state)
  : outcome -> Prop :=
| it_nan loss :
    let g := global_step st + 1 in
    is_nan loss = true ->
    iteration epoch b st
      (Broke (mkState g (train_losses st) (best_accuracy st) true
                      (wait_step st)
                      (trace st ++ map (pair g)
                         (forward_calls b loss
                            ++ [ELoggerInfo (LogStopTraining loss)]))))
| it_zero_accumulation loss :
    let g := global_step st + 1 in
    is_nan loss = false ->
    Args.gradient_accumulation_steps args = 0 ->
    iteration epoch b st
      (Raised ZeroDivisionError
              (mkState g (train_losses st ++ [loss]) (best_accuracy st)
                       (stop_training st) (wait_step st)
                       (trace st ++ map (pair g)
                          (forward_calls b loss ++ [EBackward loss]))))
| it_zero_period loss :
    let g := global_step st + 1 in
    is_nan loss = false ->
    Args.gradient_accumulation_steps args <> 0 ->
    Args.eval_period args = 0 ->
    iteration epoch b st
      (Raised ZeroDivisionError
              (mkState g (train_losses st ++ [loss]) (best_accuracy st)
                       (stop_training st) (wait_step st)
                       (trace st ++ map (pair g)
                          (forward_calls b loss ++ [EBackward loss]
                             ++ update_calls g))))
| it_no_evaluation loss :
    let g := global_step st + 1 in
    is_nan loss = false ->
    Args.gradient_accumulation_steps args <> 0 ->
    Args.eval_period args <> 0 ->
    is_multiple g (Args.eval_period args) = false ->
    iteration epoch b st
      (Normal (mkState g (train_losses st ++ [loss]) (best_accuracy st)
                       (stop_training st) (wait_step st)
                       (trace st ++ map (pair g)
                          (forward_calls b loss ++ [EBackward loss]
                             ++ update_calls g))))
| it_no_module loss :
    let g := global_step st + 1 in
    is_nan loss = false ->
    Args.gradient_accumulation_steps args <> 0 ->
    is_multiple g (Args.eval_period args) = true ->
    eval_model = None ->
    iteration epoch b st
      (Raised (AttributeError "module")
              (mkState g (train_losses st ++ [loss]) (best_accuracy st)
                       (stop_training st) (wait_step st)
                       (trace st ++ map (pair g)
                          (forward_calls b loss ++ [EBackward loss]
                             ++ update_calls g ++ [EModelEval]))))
| it_improved loss m outs :
    let g := global_step st + 1 in
    let curr_em := score_of (map decode_batch outs) in
    let calls :=
      forward_calls b loss ++ [EBackward loss] ++ update_calls g
        ++ evaluation_calls m outs (np_mean (train_losses st ++ [loss]))
                            epoch g in
    is_nan loss = false ->
    Args.gradient_accumulation_steps args <> 0 ->
    is_multiple g (Args.eval_period args) = true ->
    eval_model = Some m ->
    length outs = length (dataloader dev_data) ->
    (best_accuracy st <? curr_em)%float = true ->
    iteration epoch b st
      (Normal (mkState g [] curr_em false (Some 0)
                       (trace st ++ map (pair g)
                          (calls
                             ++ checkpoint_calls
                                  (h0 ++ map snd (trace st) ++ calls)
                                  (best_accuracy st) curr_em epoch g
                             ++ [EModelTrain]))))
| it_unbound loss m outs :
    let g := global_step st + 1 in
    let curr_em := score_of (map decode_batch outs) in
    is_nan loss = false ->
    Args.gradient_accumulation_steps args <> 0 ->
    is_multiple g (Args.eval_period args) = true ->
    eval_model = Some m ->
    length outs = length (dataloader dev_data) ->
    (best_accuracy st <? curr_em)%float = false ->
    wait_step st = None ->
    iteration epoch b st
      (Raised (UnboundLocalError "wait_step")
              (mkState g [] (best_accuracy st) (stop_training st) None
                       (trace st ++ map (pair g)
                          (forward_calls b loss ++ [EBackward loss]
                             ++ update_calls g
                             ++ evaluation_calls
                                  m outs
                                  (np_mean (train_losses st ++ [loss]))
                                  epoch g))))
| it_patience_out loss m outs w :
    let g := global_step st + 1 in
    let curr_em := score_of (map decode_batch outs) in
    is_nan loss = false ->
    Args.gradient_accumulation_steps args <> 0 ->
    is_multiple g (Args.eval_period args) = true ->
    eval_model = Some m ->
    length outs = length (dataloader dev_data) ->
    (best_accuracy st <? curr_em)%float = false ->
    wait_step st = Some w ->
    w + 1 >= Args.wait_step args ->
    iteration epoch b st
      (Broke (mkState g [] (best_accuracy st) true (Some (w + 1))
                      (trace st ++ map (pair g)
                         (forward_calls b loss ++ [EBackward loss]
                            ++ update_calls g
                            ++ evaluation_calls
                                 m outs
                                 (np_mean (train_losses st ++ [loss]))
                                 epoch g))))
| it_patience_left loss m outs w :
    let g := global_step st + 1 in
    let curr_em := score_of (map decode_batch outs) in
    is_nan loss = false ->
    Args.gradient_accumulation_steps args <> 0 ->
    is_multiple g (Args.eval_period args) = true ->
    eval_model = Some m ->
    length outs = length (dataloader dev_data) ->
    (best_accuracy st <? curr_em)%float = false ->
    wait_step st = Some w ->
    w + 1 < Args.wait_step args ->
    iteration epoch b st
      (Normal (mkState g [] (best_accuracy st) (stop_training st)
                       (Some (w + 1))
                       (trace st ++ map (pair g)
                          (forward_calls b loss ++ [EBackward loss]
                             ++ update_calls g
                             ++ evaluation_calls
                                  m outs
                                  (np_mean (train_losses st ++ [loss]))
                                  epoch g
                             ++ [EModelTrain])))).

(** The states in which an iteration of the inner loop can start: the
    initial one, and those a loop body falls through to. *)
Inductive visited : state -> Prop :=
| visited_initial : visited initial_state
| visited_next epoch b st st' :
    visited st ->
    train_batch args model dev_data h0 epoch b st = Normal st' ->
    visited st'.

(** [reaches st st']: some number of loop bodies, however they end,
    lead from [st] to [st']. *)
Inductive reaches : state -> state -> Prop :=
| reaches_refl st : reaches st st
| reaches_step st st' epoch b :
    reaches st st' ->
    reaches st (state_of (train_batch args model dev_data h0 epoch b st')).

(** The loop body [o] is the one the call of [train] ended with. *)
Definition ends_as (r : result) (o : outcome) : Prop :=
  match r, o with
  | Returned st, Normal st' | Returned st, Broke st' => st = st'
  | Failed e st, Raised e' st' => e = e' /\ st = st'
  | _, _ => False
  end.

(** The iteration that made [global_step] equal to [g] in the run that
    ended as [r]: it started in [st0], on batch [b] of epoch [epoch].
    The trace of the whole run is the trace [st0] had, then the calls
    of this iteration, then those of the later ones; only the last
    iteration of a run may end otherwise than by falling through. *)
Definition step_of_run (r : result) (g epoch : Z) (b : batch)
           (st0 : state) : Prop :=
  let o := train_batch args model dev_data h0 epoch b st0 in
  visited st0 /\ global_step st0 = g - 1 /\
  trace st0 = calls_before g (trace (final r)) /\
  trace (state_of o) = calls_before (g + 1) (trace (final r)) /\
  (exists post, trace (final r) = trace (state_of o) ++ post) /\
  (g < global_step (final r) -> exists st1, o = Normal st1) /\
  (g = global_step (final r) -> ends_as r o).

End Run.

(** Every stamp of a trace lies between 0 and [n]. *)
Definition stamps_le (n : Z) (tr : list (Z * event)) : Prop :=
  Forall (fun x => 0 <= fst x <= n) tr.

(** No checkpoint was written in the trace. *)
Definition never_saved (tr : list (Z * event)) : Prop :=
  forall g obj path, ~ In (g, ETorchSave obj path) tr.

(** No evaluation was scored in the trace. *)
Definition never_evaluated (tr : list (Z * event)) : Prop :=
  forall g preds, ~ In (g, EEvaluate preds) tr.

(** The calls that touch the gradients or the parameters. *)
Definition is_update_call (e : event) : bool :=
  match e with
  | EBackward _ | EClipGradNorm _ | EOptimizerStep | ESchedulerStep
  | EZeroGrad => true
  | _ => false
  end.

(** How many calls of a trace satisfy [p]. *)
Definition count_calls (p : event -> bool) (tr : list (Z * event)) : Z :=
  Z.of_nat (List.length (filter p (map snd tr))).

Definition is_forward (e : event) : bool :=
  match e with
  | EForward _ _ _ => true
  | _ => false
  end.

Definition is_backward (e : event) : bool :=
  match e with
  | EBackward _ => true
  | _ => false
  end.

Definition is_optimizer_step (e : event) : bool :=
  match e with
  | EOptimizerStep => true
  | _ => false
  end.

(** The mode [model.train()] and [model.eval()] switch between. *)
Inductive mode : Type :=
| Training
| Evaluating.

Definition switch_mode (m : option mode) (e : event) : option mode :=
  match e with
  | EModelTrain => Some Training
  | EModelEval => Some Evaluating
  | _ => m
  end.

(** The mode the last [model.train()] or [model.eval()] of a trace left
    the model in; [None] when neither was called. *)
Definition model_mode (tr : list (Z * event)) : option mode :=
  fold_left switch_mode (map snd tr) None.

(** What a call does to the count of evaluations since the last
    checkpoint: a scored evaluation adds one to it, a saved checkpoint
    starts it again from zero.  Before the first checkpoint there is no
    count. *)
Definition count_wait (w : option Z) (e : event) : option Z :=
  match e with
  | EEvaluate _ => option_map Z.succ w
  | ETorchSave _ _ => Some 0
  | _ => w
  end.

(** The evaluations scored since the last checkpoint of a trace. *)
Definition evaluations_since_save (tr : list (Z * event)) : option Z :=
  fold_left count_wait (map snd tr) None.

(** The call [e] fits the iteration on batch [b] of epoch [epoch] that
    made [global_step] equal to [g]: a forward pass is in training mode
    and on [b], a log line of an evaluation or of a checkpoint names
    [epoch] and [g]. *)
Definition made_in (epoch g : Z) (b : batch) (e : event) : Prop :=
  match e with
  | EForward b' is_training _ => b' = b /\ is_training = true
  | ELoggerInfo (LogStep g' _ _ _ epoch') => g' = g /\ epoch' = epoch
  | ELoggerInfo (LogSavingModel _ _ _ epoch' g') => g' = g /\ epoch' = epoch
  | _ => True
  end.

(** The calls that belong to training: building the optimizer and the
    schedule, the training mode, forward and backward passes, updates
    and checkpoints. *)
Definition is_training_call (e : event) : bool :=
  match e with
  | ENewAdamW _ _ _ | ENewLinearSchedule _ _ | EModelTrain
  | EForward _ _ _ | ETorchSave _ _ => true
  | _ => is_update_call e
  end.

End Observations.

(** ** A small world, to run the code on *)

Module Demo.

(** Tensors hold an integer, the model object is the only one of its
    kind, generation outputs and predictions are the score they will
    get, parameters are numbered. *)
Definition data : Data :=
  {| tensor_data := Z; Model := unit; outputs := float;
     prediction := float; parameter := Z |}.

Definition a_batch (z : Z) : batch (D := data) :=
  let t := mkTensor (D := data) Cpu z in mkBatch t t t t.

(** The number of calls of [model.eval()] in a history. *)
Definition evaluations (h : list (event (D := data))) : nat :=
  length (filter (fun e => match e with EModelEval => true | _ => false end)
                 h).

(** The arithmetic mean; of no number at all it is not-a-number, as
    with NumPy. *)
Definition mean (l : list float) : float :=
  (fold_right PrimFloat.add 0 l
   / PrimFloat.of_uint63 (Uint63.of_Z (Z.of_nat (length l))))%float.

(** A world in which the forward pass on a batch yields 0.5, or
    not-a-number when the batch holds a negative number, and the
    [k]-th evaluation generates, for every dev batch, an output that
    scores [nth k scores]. *)
Definition world (scores : list float) (train_batches dev_batches : list Z)
  : Collaborators (D := data) :=
  {| cuda_is_available := false;
     forward_loss := fun _ (b : batch (D := data)) =>
       if (data_of (input_ids b) : Z) <? 0 then nan else 0.5%float;
     generate := fun (h : list (event (D := data))) _ _ _ _ _ _ =>
       nth (pred (evaluations h)) scores nan;
     decode_batch := fun out => out;
     evaluate := fun preds => preds;
     np_mean := mean;
     state_dict := fun _ =>
       [("shared.weight"%string, mkTensor (D := data) Cuda 7)];
     named_parameters := fun _ =>
       [("encoder.layer.bias"%string, 1);
        ("encoder.layer.weight"%string, 2);
        ("encoder.LayerNorm.weight"%string, 3)];
     module := fun _ => None;
     os_path_join := fun a b => (a ++ "/" ++ b)%string;
     from_pretrained := fun _ => tt;
     new_QAData := fun a file =>
       mkQAData (D := data) a
                (map a_batch (if String.eqb file "train.json"
                              then train_batches else dev_batches))
                "EM" file |}.

Definition args (do_train : bool) (gas period patience epochs : Z)
  : Args.t :=
  Args.mk "train.json" "dev.json" "out" do_train true
          0.5%float 0.25%float 0.125%float 0 epochs gas 1%float period 1
          patience 4 20.

(** The data sets [run] builds in the world [w]. *)
Definition train_set (w : Collaborators (D := data)) (a : Args.t)
  : QAData (D := data) :=
  new_QAData (Collaborators := w) a (Args.train_file a).

Definition dev_set (w : Collaborators (D := data)) (a : Args.t)
  : QAData (D := data) :=
  new_QAData (Collaborators := w) a (Args.predict_file a).

(** Three evaluations scoring 0.5, 0.25 and 0.125, one at every step,
    an optimizer step every second step, patience 2. *)
Definition falling_world : Collaborators (D := data) :=
  world [0.5; 0.25; 0.125]%float [1; 2] [0].

Definition falling_args : Args.t := args true 2 1 2 5.

(** The second batch makes the loss not-a-number. *)
Definition nan_world : Collaborators (D := data) :=
  world [0.5]%float [1; -1; 3] [0].

Definition nan_args : Args.t := args true 2 3 2 5.

(** An empty dev set: the mean score is not-a-number. *)
Definition empty_world : Collaborators (D := data) :=
  world [] [1; 2] [].

End Demo.

(** Arguments for the corners of [train]. *)
Module Edge.

(** No accumulation steps: the first remainder has a zero divisor. *)
Definition zero_accumulation_args : Args.t := Demo.args true 0 1 2 5.

(** An optimizer step at every step, and a zero evaluation period. *)
Definition zero_period_args : Args.t := Demo.args true 1 0 2 5.

(** Two GPUs, with a model that was not wrapped: it has no [module]. *)
Definition two_gpu_args : Args.t :=
  Args.mk "train.json" "dev.json" "out" true true
          0.5%float 0.25%float 0.125%float 0 5 2 1%float 1 2
          2 4 20.

(** Prediction only. *)
Definition predict_args : Args.t := Demo.args false 2 1 2 5.

(** An evaluation every second step, for the world whose second batch
    makes the loss not-a-number. *)
Definition nan_period_args : Args.t := Demo.args true 2 2 2 5.

End Edge.

Set Implicit Arguments.

(** ** Facts about single calls *)

Section Facts.
Context {D : Data} {C : Collaborators}.

Lemma emit_all_fields evs st :
  trace (emit_all evs st) = trace st ++ map (pair (global_step st)) evs /\
  global_step (emit_all evs st) = global_step st /\
  train_losses (emit_all evs st) = train_losses st /\
  best_accuracy (emit_all evs st) = best_accuracy st /\
  stop_training (emit_all evs st) = stop_training st /\
  wait_step (emit_all evs st) = wait_step st.
Proof.
  revert st; induction evs as [|e evs IH]; intros st; simpl.
  - rewrite app_nil_r; repeat split.
  - destruct (IH (emit e st)) as (Ht & Hg & Hl & Hb & Hs & Hw).
    unfold emit_all in *. simpl in *.
    rewrite Ht, Hg, Hl, Hb, Hs, Hw, <- app_assoc. repeat split.
Qed.

Lemma inference_loop_spec m dev bs : forall h evs preds,
  exists outs,
    length outs = length bs /\
    inference_loop m dev bs h evs preds =
      (evs ++ generation_calls m dev bs outs, preds ++ map decode_batch outs).
Proof.
  induction bs as [|b bs IH]; intros h evs preds; simpl.
  - exists []. rewrite !app_nil_r. auto.
  - match goal with |- context [inference_loop _ _ _ _ ?e ?p] =>
      destruct (IH h e p) as (outs & Hlen & Heq) end.
    match goal with |- context [EDecodeBatch ?o] => exists (o :: outs) end.
    split; [simpl; congruence|].
    rewrite Heq. unfold generation_calls. simpl.
    rewrite <- !app_assoc. reflexivity.
Qed.

Lemma inference_spec m dev save h :
  exists outs,
    length outs = length (dataloader dev) /\
    inference m dev save h =
      (generation_calls m dev (dataloader dev) outs
         ++ (if save then [ESavePredictions (map decode_batch outs)] else [])
         ++ [EEvaluate (map decode_batch outs)],
       score_of (map decode_batch outs)).
Proof.
  unfold inference.
  destruct (inference_loop_spec m dev (dataloader dev) h [] []) as (outs & Hlen & Heq).
  exists outs. split; [exact Hlen|].
  rewrite Heq. simpl. destruct save; rewrite <- ?app_assoc; reflexivity.
Qed.


Section RunFacts.
Variable args : Args.t.
Variable model : Model.
Variable train_data dev_data : QAData.
Variable h0 : list event.

Local Abbreviation body := (train_batch args model dev_data h0).
Local Abbreviation iteration := (iteration args model dev_data h0).

Lemma is_multiple_spec g n :
  is_multiple g n = true <-> n <> 0 /\ (n | g).
Proof.
  unfold is_multiple, py_mod.
  destruct (Z.eqb_spec n 0) as [->|Hn].
  - split; [discriminate|intros [[] _]; reflexivity].
  - rewrite Z.eqb_eq, Z.mod_divide by assumption. tauto.
Qed.

Lemma py_mod_zero g n : py_mod g n = None <-> n = 0.
Proof.
  unfold py_mod. destruct (Z.eqb_spec n 0); split; congruence.
Qed.

Lemma emit_all_mk evs g l a s w t :
  emit_all evs (mkState g l a s w t) =
  mkState g l a s w (t ++ map (pair g) evs).
Proof.
  revert t; induction evs as [|e evs IH]; intros t.
  - simpl. rewrite app_nil_r. reflexivity.
  - change (emit_all (e :: evs) (mkState g l a s w t))
      with (emit_all evs (mkState g l a s w (t ++ [(g, e)]))).
    rewrite IH, <- app_assoc. reflexivity.
Qed.

Lemma iteration_eq epoch b st o o' :
  iteration epoch b st o' -> o = o' -> iteration epoch b st o.
Proof. intros H ->. exact H. Qed.

Ltac run_state :=
  cbv beta iota zeta
      delta [emit set_global_step set_train_losses set_best_accuracy
             set_stop_training set_wait_step history
             save_predictions_default
             global_step train_losses best_accuracy stop_training
             wait_step trace].

Lemma map_snd_pair {A B} (a : A) (l : list B) : map snd (map (pair a) l) = l.
Proof. induction l; simpl; congruence. Qed.

Ltac same_state :=
  run_state; rewrite ?emit_all_mk; run_state;
  unfold forward_calls, evaluation_calls, checkpoint_calls;
  repeat rewrite ?map_app, ?map_snd_pair, <- ?app_assoc;
  cbn [map app snd];
  try reflexivity.

Lemma iteration_ok epoch b st : iteration epoch b st (body epoch b st).
Proof.
  destruct st as [g0 l0 a0 s0 w0 t0].
  unfold train_batch.
  set (st1 := emit (EBatchTo b torch_device) _).
  set (loss := forward_loss (history h0 st1) b).
  destruct (is_nan loss) eqn:Hnan.
  { eapply iteration_eq; [eapply it_nan; exact Hnan|]. subst st1. same_state. }
  cbv zeta.
  destruct (py_mod _ (Args.gradient_accumulation_steps args)) as [r|] eqn:Hr.
  2:{ apply py_mod_zero in Hr.
      eapply iteration_eq; [eapply it_zero_accumulation; eassumption|].
      subst st1. same_state. }
  assert (Hgas : Args.gradient_accumulation_steps args <> 0).
  { intros H. rewrite (proj2 (py_mod_zero _ _) H) in Hr. discriminate. }
  set (st2 := if r =? 0 then _ else _).
  assert (Hst2 : st2 =
            mkState (g0 + 1) (l0 ++ [loss]) a0 s0 w0
                    (t0 ++ map (pair (g0 + 1))
                       (forward_calls b loss ++ [EBackward loss]
                          ++ update_calls args (g0 + 1)))).
  { subst st2. unfold update_calls, is_multiple. cbn in Hr. rewrite Hr.
    destruct (r =? 0); subst st1; same_state. }
  clearbody st2. clear Hr r. subst st2.
  cbn [global_step].
  destruct (py_mod _ (Args.eval_period args)) as [r'|] eqn:Hr'.
  2:{ apply py_mod_zero in Hr'.
      eapply iteration_eq; [eapply it_zero_period; eassumption|]. same_state. }
  assert (Hep : Args.eval_period args <> 0).
  { intros H. rewrite (proj2 (py_mod_zero _ _) H) in Hr'. discriminate. }
  assert (Hmul : is_multiple (g0 + 1) (Args.eval_period args) = (r' =? 0)).
  { unfold is_multiple. rewrite Hr'. reflexivity. }
  destruct (r' =? 0).
  2:{ eapply iteration_eq; [eapply it_no_evaluation; eassumption|]. same_state. }
  unfold evaluation.
  change (if Args.n_gpu args =? 1 then Some model else module model)
    with (eval_model args model).
  destruct (eval_model args model) as [m|] eqn:Hm.
  2:{ eapply iteration_eq; [eapply it_no_module; eassumption|]. same_state. }
  match goal with |- context [inference m dev_data ?s ?h] =>
    destruct (inference_spec m dev_data s h) as (outs & Hlen & Hinf);
    rewrite Hinf; clear Hinf end.
  run_state. rewrite emit_all_mk. run_state.
  destruct (a0 <? score_of (map decode_batch outs))%float eqn:Hlt.
  { eapply iteration_eq; [eapply it_improved; eassumption|]. same_state. }
  destruct w0 as [w|].
  2:{ eapply iteration_eq; [eapply it_unbound; try eassumption; reflexivity|].
      same_state. }
  destruct (Z.geb_spec (w + 1) (Args.wait_step args)).
  - eapply iteration_eq;
      [eapply it_patience_out; try eassumption; try reflexivity; cbn; lia|].
    same_state.
  - eapply iteration_eq;
      [eapply it_patience_left; try eassumption; try reflexivity; cbn; lia|].
    same_state.
Qed.

(** *** Stamps *)

Lemma iteration_stamps {epoch b st o} :
  iteration epoch b st o ->
  global_step (state_of o) = global_step st + 1 /\
  exists evs,
    trace (state_of o) = trace st ++ map (pair (global_step st + 1)) evs.
Proof.
  intros H; inversion H; subst; cbn [state_of global_step trace];
    (split; [reflexivity|eexists; reflexivity]).
Qed.

Lemma iteration_broke {epoch b st st'} :
  iteration epoch b st (Broke st') -> stop_training st' = true.
Proof. intros H; inversion H; subst; reflexivity. Qed.

Lemma iteration_normal {epoch b st st'} :
  iteration epoch b st (Normal st') ->
  stop_training st = false -> stop_training st' = false.
Proof. intros H; inversion H; subst; cbn; auto. Qed.

Lemma stamps_le_app n tr g evs :
  stamps_le n tr -> 0 <= g <= n -> stamps_le n (tr ++ map (pair g) evs).
Proof.
  intros H Hg. apply Forall_app; split; [exact H|].
  apply Forall_forall. intros x Hx. apply in_map_iff in Hx.
  destruct Hx as (e & <- & _). exact Hg.
Qed.

Lemma stamps_le_weaken n m tr : stamps_le n tr -> n <= m -> stamps_le m tr.
Proof.
  intros H Hnm. eapply Forall_impl; [|exact H]. cbn. intros; lia.
Qed.

Lemma visited_facts st :
  visited args model dev_data h0 st ->
  stop_training st = false /\ 0 <= global_step st /\
  stamps_le (global_step st) (trace st).
Proof.
  induction 1 as [|epoch b st st' Hv (Hs & Hg & Ht) Hb].
  - cbn. repeat split; try lia. repeat constructor; cbn; lia.
  - pose proof (iteration_ok epoch b st) as Hit. rewrite Hb in Hit.
    destruct (iteration_stamps Hit) as (Hg' & evs & Htr). cbn in Hg', Htr.
    split; [eapply iteration_normal; eassumption|].
    split; [lia|]. rewrite Htr, Hg'.
    apply stamps_le_app; [|lia]. eapply stamps_le_weaken; [eassumption|lia].
Qed.

Lemma calls_before_app g tr tr' :
  calls_before g (tr ++ tr') = calls_before g tr ++ calls_before g tr'.
Proof. apply filter_app. Qed.

Lemma calls_before_stamped g g' (evs : list event) :
  calls_before g (map (pair g') evs) = if g' <? g then map (pair g') evs else [].
Proof.
  unfold calls_before. induction evs as [|e evs IH]; cbn.
  - destruct (g' <? g); reflexivity.
  - rewrite IH. destruct (g' <? g); reflexivity.
Qed.

Lemma calls_before_all g tr : stamps_le (g - 1) tr -> calls_before g tr = tr.
Proof.
  unfold calls_before. induction 1 as [|x tr Hx _ IH]; cbn; [reflexivity|].
  rewrite IH. destruct (Z.ltb_spec (fst x) g); [reflexivity|lia].
Qed.

Lemma calls_at_app g tr tr' :
  calls_at g (tr ++ tr') = calls_at g tr ++ calls_at g tr'.
Proof. unfold calls_at. rewrite filter_app, map_app. reflexivity. Qed.

Lemma calls_at_stamped g g' (evs : list event) :
  calls_at g (map (pair g') evs) = if g' =? g then evs else [].
Proof.
  unfold calls_at. induction evs as [|e evs IH]; cbn.
  - destruct (g' =? g); reflexivity.
  - destruct (g' =? g) eqn:E; cbn; rewrite IH; reflexivity.
Qed.

Lemma calls_at_none g n tr : stamps_le n tr -> n < g -> calls_at g tr = [].
Proof.
  unfold calls_at. induction 1 as [|x tr Hx _ IH]; cbn; intros Hg; [reflexivity|].
  destruct (Z.eqb_spec (fst x) g); [lia|auto].
Qed.

Lemma calls_at_before g g' tr :
  g < g' -> calls_at g (calls_before g' tr) = calls_at g tr.
Proof.
  intros Hg. unfold calls_at, calls_before. induction tr as [|x tr IH]; cbn; [reflexivity|].
  destruct (Z.ltb_spec (fst x) g'); cbn; destruct (Z.eqb_spec (fst x) g); cbn;
    try rewrite IH; try reflexivity; lia.
Qed.

Lemma in_calls_at g e tr : In e (calls_at g tr) <-> In (g, e) tr.
Proof.
  unfold calls_at. rewrite in_map_iff. split.
  - intros ([g' e'] & <- & Hin). apply filter_In in Hin. cbn in Hin.
    destruct Hin as (Hin & Heq). apply Z.eqb_eq in Heq. subst. exact Hin.
  - intros Hin. exists (g, e). split; [reflexivity|].
    apply filter_In. split; [exact Hin|]. cbn. apply Z.eqb_refl.
Qed.


(** *** The loops *)

Local Abbreviation visited := (visited args model dev_data h0).

Local Abbreviation step_of_run := (step_of_run args model dev_data h0).

Lemma for_batches_ends epoch bs : forall st,
  visited st ->
  match for_batches args model dev_data h0 epoch bs st with
  | Normal st' => visited st'
  | o => exists b st0, visited st0 /\ body epoch b st0 = o
  end.
Proof.
  induction bs as [|b bs IH]; intros st Hv; cbn; [exact Hv|].
  destruct (body epoch b st) as [st'|st'|e st'] eqn:Hb.
  - apply IH. econstructor; eassumption.
  - exists b, st. auto.
  - exists b, st. auto.
Qed.

Lemma for_epochs_ends epochs : forall st,
  visited st ->
  match for_epochs args model train_data dev_data h0 epochs st with
  | Normal st' => visited st'
  | o => exists epoch b st0, visited st0 /\ body epoch b st0 = o
  end.
Proof.
  induction epochs as [|epoch epochs IH]; intros st Hv; cbn; [exact Hv|].
  pose proof (for_batches_ends epoch (dataloader train_data) Hv) as H.
  destruct (for_batches _ _ _ _ _ _ _) as [st'|st'|e st'].
  - destruct (visited_facts H) as (-> & _). apply IH, H.
  - destruct H as (b & st0 & Hv0 & Hb).
    pose proof (iteration_ok epoch b st0) as Hit. rewrite Hb in Hit.
    rewrite (iteration_broke Hit). eauto.
  - destruct H as (b & st0 & Hv0 & Hb). eauto.
Qed.

Lemma train_ends :
  let r := train args model train_data dev_data h0 in
  (exists st, r = Returned st /\ visited st) \/
  (exists epoch b st0,
      visited st0 /\ ends_as r (body epoch b st0) /\
      forall st1, body epoch b st0 <> Normal st1).
Proof.
  unfold train.
  pose proof (for_epochs_ends (py_range (Args.num_train_epochs args))
                (visited_initial _ _ _ _)) as H.
  destruct (for_epochs _ _ _ _ _ _ _) as [st'|st'|e st'].
  - left. eauto.
  - right. destruct H as (epoch & b & st0 & Hv & Hb).
    exists epoch, b, st0. rewrite Hb. cbn. repeat split; auto; discriminate.
  - right. destruct H as (epoch & b & st0 & Hv & Hb).
    exists epoch, b, st0. rewrite Hb. cbn. repeat split; auto; discriminate.
Qed.

Lemma visited_steps st :
  visited st ->
  forall g, 1 <= g <= global_step st ->
  exists epoch b st0 st1,
    visited st0 /\ global_step st0 = g - 1 /\
    body epoch b st0 = Normal st1 /\
    trace st0 = calls_before g (trace st) /\
    trace st1 = calls_before (g + 1) (trace st) /\
    (exists post, trace st = trace st1 ++ post) /\
    (g = global_step st -> st1 = st).
Proof.
  induction 1 as [|epoch b st st' Hv IH Hb]; intros g Hg; [cbn in Hg; lia|].
  pose proof (iteration_ok epoch b st) as Hit. rewrite Hb in Hit.
  destruct (iteration_stamps Hit) as (Hg' & evs & Htr). cbn in Hg', Htr.
  destruct (visited_facts Hv) as (_ & H0 & Hst).
  rewrite Hg' in Hg. rewrite Htr, !calls_before_app, !calls_before_stamped.
  destruct (Z.eq_dec g (global_step st + 1)) as [->|Hne].
  - exists epoch, b, st, st'.
    rewrite Z.ltb_irrefl, app_nil_r.
    replace (global_step st + 1 <? global_step st + 1 + 1) with true
      by (symmetry; apply Z.ltb_lt; lia).
    rewrite !calls_before_all
      by (eapply stamps_le_weaken; [eassumption|lia]).
    repeat split; auto; try lia.
    exists []. rewrite app_nil_r. congruence.
  - destruct (IH g ltac:(lia)) as (ep0 & b0 & st0 & st1 & Hv0 & Hg0 & Hb0 & Ht0 & Ht1 & (post & Hp) & Hl).
    exists ep0, b0, st0, st1.
    replace (global_step st + 1 <? g) with false
      by (symmetry; apply Z.ltb_ge; lia).
    replace (global_step st + 1 <? g + 1) with false
      by (symmetry; apply Z.ltb_ge; lia).
    rewrite !app_nil_r. repeat split; auto; try lia.
    exists (post ++ map (pair (global_step st + 1)) evs).
    rewrite Hp, <- app_assoc. reflexivity.
Qed.

Lemma train_steps g :
  1 <= g <= global_step (final (train args model train_data dev_data h0)) ->
  exists epoch b st0,
    step_of_run (train args model train_data dev_data h0) g epoch b st0.
Proof.
  intros Hg. set (r := train args model train_data dev_data h0) in *.
  destruct train_ends as [(st & Hr & Hv)|(epoch & b & st0 & Hv & He & Hn)];
    fold r in Hr || fold r in He.
  - rewrite Hr in Hg |- *. cbn [final] in *.
    destruct (visited_steps Hv Hg) as (ep0 & b0 & st0 & st1 & Hv0 & Hg0 & Hb0 & Ht0 & Ht1 & Hp & Hl).
    exists ep0, b0, st0. unfold step_of_run. cbn [final]. rewrite Hb0. cbn [state_of].
    repeat split; auto; [eauto|]. intros E. cbn. symmetry; auto.
  - pose proof (iteration_ok epoch b st0) as Hit.
    destruct (iteration_stamps Hit) as (Hg' & evs & Htr).
    destruct (visited_facts Hv) as (_ & H0 & Hst).
    assert (Hfin : final r = state_of (body epoch b st0)).
    { destruct r, (body epoch b st0); cbn in He |- *; try tauto; try congruence. }
    unfold step_of_run. rewrite Hfin in Hg |- *.
    rewrite Hg' in Hg |- *. rewrite Htr, !calls_before_app, !calls_before_stamped.
    destruct (Z.eq_dec g (global_step st0 + 1)) as [->|Hne].
    + exists epoch, b, st0.
      rewrite Z.ltb_irrefl, app_nil_r.
      replace (global_step st0 + 1 <? global_step st0 + 1 + 1) with true
        by (symmetry; apply Z.ltb_lt; lia).
      rewrite !calls_before_all
        by (eapply stamps_le_weaken; [eassumption|lia]).
      repeat split; auto; try lia.
      exists []. rewrite app_nil_r. congruence.
    + destruct (visited_steps Hv (g:=g) ltac:(lia)) as (ep0 & b0 & st00 & st1 & Hv0 & Hg0 & Hb0 & Ht0 & Ht1 & (post & Hp) & Hl).
      exists ep0, b0, st00.
      replace (global_step st0 + 1 <? g) with false
        by (symmetry; apply Z.ltb_ge; lia).
      replace (global_step st0 + 1 <? g + 1) with false
        by (symmetry; apply Z.ltb_ge; lia).
      rewrite !app_nil_r, Hb0. cbn [state_of].
      repeat split; auto; [|eauto|lia].
      exists (post ++ map (pair (global_step st0 + 1)) evs).
      rewrite Hp, <- app_assoc. reflexivity.
Qed.

Lemma skipn_length_app {A} (l l' : list A) : skipn (length l) (l ++ l') = l'.
Proof. induction l; simpl; auto. Qed.

Lemma emitted_mk st o evs :
  trace (state_of o) = trace st ++ map (pair (global_step st + 1)) evs ->
  emitted st o = evs.
Proof.
  unfold emitted. intros ->. rewrite skipn_length_app. apply map_snd_pair.
Qed.

Lemma step_calls r g epoch b st0 :
  step_of_run r g epoch b st0 ->
  calls_at g (trace (final r)) = emitted st0 (body epoch b st0) /\
  exists post,
    trace (final r) =
      calls_before g (trace (final r))
        ++ map (pair g) (calls_at g (trace (final r))) ++ post.
Proof.
  intros (Hv & Hg & Ht0 & Ht1 & (post & Hp) & _).
  destruct (iteration_stamps (iteration_ok epoch b st0)) as (_ & evs & Htr).
  destruct (visited_facts Hv) as (_ & _ & Hst).
  replace (global_step st0 + 1) with g in Htr by lia.
  assert (E : calls_at g (trace (final r)) = evs).
  { rewrite <- (@calls_at_before g (g + 1)) by lia.
    rewrite <- Ht1, Htr, calls_at_app, calls_at_stamped, Z.eqb_refl.
    rewrite (@calls_at_none g (global_step st0)); auto; lia. }
  split.
  - rewrite E. symmetry. apply emitted_mk.
    replace (global_step st0 + 1) with g by lia. exact Htr.
  - exists post. rewrite E, <- Ht0, app_assoc, <- Htr. exact Hp.
Qed.

Lemma visited_invariant (P : state -> Prop) :
  P initial_state ->
  (forall epoch b st st',
      visited st -> P st -> body epoch b st = Normal st' -> P st') ->
  forall st, visited st -> P st.
Proof.
  intros Hi Hs st Hv. induction Hv; eauto.
Qed.

Lemma train_invariant (P : state -> Prop) :
  P initial_state ->
  (forall epoch b st, visited st -> P st -> P (state_of (body epoch b st))) ->
  P (final (train args model train_data dev_data h0)).
Proof.
  intros Hi Hs.
  assert (Hv : forall st, visited st -> P st).
  { apply visited_invariant; [exact Hi|].
    intros epoch b st st' Hv HP Hb. specialize (Hs epoch b st Hv HP).
    rewrite Hb in Hs. exact Hs. }
  destruct train_ends as [(st & -> & Hst)|(epoch & b & st0 & Hv0 & He & _)].
  - apply Hv, Hst.
  - specialize (Hs epoch b st0 Hv0 (Hv _ Hv0)).
    destruct (train _ _ _ _ _), (body epoch b st0); cbn in He, Hs |- *;
      try tauto; try (destruct He); subst; exact Hs.
Qed.

Lemma train_stamps :
  let st := final (train args model train_data dev_data h0) in
  0 <= global_step st /\ stamps_le (global_step st) (trace st).
Proof.
  cbv zeta.
  apply (train_invariant
           (fun st => 0 <= global_step st /\
                      stamps_le (global_step st) (trace st))).
  - cbn. split; [lia|]. repeat constructor; cbn; lia.
  - intros epoch b st Hv (H0 & Hst).
    destruct (iteration_stamps (iteration_ok epoch b st)) as (Hg & evs & Htr).
    rewrite Hg, Htr. split; [lia|].
    apply stamps_le_app; [|lia]. eapply stamps_le_weaken; [eassumption|lia].
Qed.

Lemma train_calls_at_0 :
  calls_at 0 (trace (final (train args model train_data dev_data h0)))
  = [EModelTrain; ELoggerInfo LogStartingTraining].
Proof.
  apply (train_invariant
           (fun st => 0 <= global_step st /\
                      calls_at 0 (trace st)
                      = [EModelTrain; ELoggerInfo LogStartingTraining])).
  - cbn. split; [lia|reflexivity].
  - intros epoch b st Hv (H0 & Hc).
    destruct (iteration_stamps (iteration_ok epoch b st)) as (Hg & evs & Htr).
    rewrite Hg, Htr, calls_at_app, calls_at_stamped, Hc. split; [lia|].
    destruct (Z.eqb_spec (global_step st + 1) 0); [lia|]. reflexivity.
Qed.

Lemma in_trace_stamp g e :
  In (g, e) (trace (final (train args model train_data dev_data h0))) ->
  (g = 0 /\ (e = EModelTrain \/ e = ELoggerInfo LogStartingTraining)) \/
  1 <= g <= global_step (final (train args model train_data dev_data h0)).
Proof.
  intros Hin. destruct train_stamps as (H0 & Hst).
  pose proof (proj1 (Forall_forall _ _) Hst _ Hin) as Hg. cbn in Hg.
  destruct (Z.eq_dec g 0) as [->|]; [left|right; lia].
  split; [reflexivity|]. apply in_calls_at in Hin.
  rewrite train_calls_at_0 in Hin. cbn in Hin. intuition congruence.
Qed.

(** *** The calls of one iteration *)

Lemma generation_calls_forall (P : event -> Prop) m dev bs outs :
  (forall b d, P (EBatchTo b d)) ->
  (forall m i k nb ml es out, P (EGenerate m i k nb ml es out)) ->
  (forall out, P (EDecodeBatch out)) ->
  Forall P (generation_calls m dev bs outs).
Proof.
  intros Hb Hg Hd. unfold generation_calls.
  induction (combine bs outs) as [|bo l IH]; cbn; [constructor|].
  repeat (constructor; auto).
Qed.

Lemma evaluation_calls_no_update m outs tl epoch g :
  Forall (fun e => is_update_call e = false)
         (evaluation_calls dev_data m outs tl epoch g).
Proof.
  unfold evaluation_calls. repeat (apply Forall_app; split).
  - repeat constructor.
  - apply generation_calls_forall; reflexivity.
  - repeat constructor.
Qed.

Lemma step_iteration r g epoch b st0 :
  step_of_run r g epoch b st0 ->
  exists o,
    o = body epoch b st0 /\ iteration epoch b st0 o /\
    global_step st0 + 1 = g /\
    calls_at g (trace (final r)) = emitted st0 o /\
    exists post,
      trace (final r) =
        calls_before g (trace (final r))
          ++ map (pair g) (emitted st0 o) ++ post.
Proof.
  intros Hs. exists (body epoch b st0).
  destruct (step_calls Hs) as (Hc & post & Hp).
  repeat split; auto using iteration_ok.
  - destruct Hs as (_ & ? & _). lia.
  - exists post. rewrite <- Hc. exact Hp.
Qed.

Ltac emitted_calls :=
  match goal with
  | |- context [emitted ?st ?o] =>
      erewrite (@emitted_mk st o) by (cbn [state_of trace]; reflexivity)
  | H : context [emitted ?st ?o] |- _ =>
      erewrite (@emitted_mk st o) in H by (cbn [state_of trace]; reflexivity)
  end.

(** *** Reading a step of a finished run *)

Lemma step_view r g epoch b st0 (Hs : step_of_run r g epoch b st0) :
  exists o post,
    body epoch b st0 = o /\
    iteration epoch b st0 o /\ visited st0 /\ global_step st0 + 1 = g /\
    trace st0 = calls_before g (trace (final r)) /\
    calls_at g (trace (final r)) = emitted st0 o /\
    trace (final r) = trace st0 ++ map (pair g) (emitted st0 o) ++ post /\
    calls_at g post = [] /\
    (g < global_step (final r) -> exists st1, o = Normal st1) /\
    (g = global_step (final r) -> ends_as r o).
Proof.
  destruct (step_iteration Hs) as (o & -> & Hit & Hg & Hc & post & Hp).
  destruct Hs as (Hv & _ & Ht0 & _ & _ & Hn & He).
  exists (body epoch b st0), post. rewrite Ht0 at 2.
  repeat split; auto.
  destruct (visited_facts Hv) as (_ & _ & Hst).
  rewrite Hp, <- Ht0, !calls_at_app, calls_at_stamped, Z.eqb_refl in Hc.
  rewrite (@calls_at_none g (global_step st0)) in Hc by (auto; lia).
  cbn [app] in Hc. rewrite <- (app_nil_r (emitted _ _)) in Hc at 2.
  apply app_inv_head in Hc. exact Hc.
Qed.

Ltac step_cases Hs :=
  let o := fresh "o" in
  let post := fresh "post" in
  let Hit := fresh "Hit" in
  let Hv := fresh "Hvis" in
  let Hg := fresh "Hstep" in
  let Ht := fresh "Hbefore" in
  let Hc := fresh "Hcalls" in
  let Hp := fresh "Htrace" in
  let Hq := fresh "Hpost" in
  let Hn := fresh "Hnext" in
  let He := fresh "Hend" in
  let Hb := fresh "Hbody" in
  destruct (step_view Hs)
    as (o & post & Hb & Hit & Hv & Hg & Ht & Hc & Hp & Hq & Hn & He);
  revert Hb; inversion Hit; subst o; intros Hb;
  repeat match goal with x := _ |- _ => subst x end;
  repeat emitted_calls;
  clear Hit;
  try match type of Hg with _ = ?g => is_var g; subst g end.

Lemma update_calls_in e g :
  In e (update_calls args g) ->
  is_multiple g (Args.gradient_accumulation_steps args) = true /\
  (e = EClipGradNorm (Args.max_grad_norm args) \/ e = EOptimizerStep \/
   e = ESchedulerStep \/ e = EZeroGrad).
Proof.
  unfold update_calls. destruct (is_multiple _ _); cbn; [|tauto].
  intuition congruence.
Qed.

Lemma generation_calls_in e m dev bs outs :
  In e (generation_calls m dev bs outs) ->
  exists b out,
    e = EBatchTo b torch_device \/
    e = EGenerate m (input_ids b) (attention_mask b)
                  (Args.num_beams (qa_args dev))
                  (Args.max_output_length (qa_args dev)) true out \/
    e = EDecodeBatch out.
Proof.
  unfold generation_calls. intros Hin. apply in_concat in Hin.
  destruct Hin as (l & Hl & Hin). apply in_map_iff in Hl.
  destruct Hl as ([b out] & <- & _). exists b, out.
  cbn in Hin. intuition congruence.
Qed.

Lemma evaluation_calls_in e m outs tl epoch g :
  In e (evaluation_calls dev_data m outs tl epoch g) ->
  e = EModelEval \/
  In e (generation_calls m dev_data (dataloader dev_data) outs) \/
  e = ESavePredictions (map decode_batch outs) \/
  e = EEvaluate (map decode_batch outs) \/
  e = ELoggerInfo (LogStep g tl (metric dev_data)
                           (score_of (map decode_batch outs) * 100)%float
                           epoch).
Proof.
  unfold evaluation_calls. rewrite !in_app_iff. cbn. intuition congruence.
Qed.

Ltac find_call :=
  lazymatch goal with
  | |- In _ (_ :: _) => first [left; reflexivity | right; find_call]
  | |- In _ (_ ++ _) =>
      apply in_or_app; first [left; find_call | right; find_call]
  | |- In (?g, ?e) (map (pair ?g) ?l) =>
      apply (in_map (pair g) l e); find_call
  | |- In _ (evaluation_calls _ _ _ _ _ _) =>
      unfold evaluation_calls; find_call
  | |- In _ (checkpoint_calls _ _ _ _ _ _ _) =>
      unfold checkpoint_calls; find_call
  | |- In _ (forward_calls _ _) => unfold forward_calls; find_call
  | _ => assumption
  end.

Ltac in_calls H :=
  unfold forward_calls, checkpoint_calls in H;
  repeat first [rewrite in_app_iff in H | progress (cbn [In] in H)];
  repeat match type of H with
         | _ \/ _ => destruct H as [H|H]
         | False => destruct H
         end;
  try (apply update_calls_in in H; destruct H as (? & [H|[H|[H|H]]]));
  try (apply evaluation_calls_in in H; destruct H as [H|[H|[H|[H|H]]]]);
  try (apply generation_calls_in in H; destruct H as (? & ? & [H|[H|H]]));
  try discriminate H.

(** C4: at every training step whose loss was back-propagated, the
    calls made are the forward pass, [loss.backward()], then, exactly
    when [global_step] is a multiple of
    [args.gradient_accumulation_steps], the four calls
    [clip_grad_norm_(.., args.max_grad_norm)], [optimizer.step()],
    [scheduler.step()], [model.zero_grad()] in this order, and after
    them no further call that touches the gradients; no such call is
    made at any other step. *)
Theorem train_gradient_accumulation g e :
  let tr := trace (final (train args model train_data dev_data h0)) in
  In (g, e) tr -> is_update_call e = true ->
  exists b loss rest pre post,
    calls_at g tr =
      forward_calls b loss ++ EBackward loss :: update_calls args g ++ rest /\
    Forall (fun e' => is_update_call e' = false) rest /\
    tr = pre ++ map (pair g) (calls_at g tr) ++ post /\
    (is_multiple g (Args.gradient_accumulation_steps args) = true
     <-> (Args.gradient_accumulation_steps args | g)).
Proof.
  intros tr Hin He.
  destruct (in_trace_stamp _ _ Hin) as [(_ & [->| ->])|Hg]; try discriminate.
  destruct (train_steps Hg) as (epoch & b & st0 & Hs).
  destruct (step_iteration Hs) as (o & Ho & Hit & Hg0 & Hc & post & Hp).
  fold tr in Hc, Hp. apply in_calls_at in Hin. rewrite <- Hc in Hp.
  assert (Hmul : is_multiple g (Args.gradient_accumulation_steps args) = true
                 <-> (Args.gradient_accumulation_steps args | g)).
  { rewrite is_multiple_spec. split; [tauto|]. intros Hd. split; [|exact Hd].
    intros E. rewrite E in Hd. apply Z.divide_0_l in Hd. lia. }
  enough (exists b' loss rest,
             calls_at g tr =
               forward_calls b' loss
                 ++ EBackward loss :: update_calls args g ++ rest /\
             Forall (fun e' => is_update_call e' = false) rest)
    as (b' & loss & rest & HA & HB).
  { exists b', loss, rest, (calls_before g tr), post. auto. }
  clear Ho Hp Hmul.
  inversion Hit; subst; cbn zeta in *; repeat emitted_calls;
    rewrite Hc in Hin |- *; clear Hc Hit;
    repeat match goal with x := _ |- _ => subst x end;
    rewrite <- ?app_assoc.
  - exfalso. cbn in Hin. destruct Hin as [<-|[<-|[<-|[]]]]; discriminate.
  - exists b, loss, []. unfold update_calls, is_multiple, py_mod.
    rewrite H0. cbn. auto.
  - exists b, loss, []. rewrite app_nil_r. auto.
  - exists b, loss, []. rewrite app_nil_r. auto.
  - exists b, loss, [EModelEval]. auto.
  - eexists b, loss, _. split; [reflexivity|].
    apply Forall_app; split; [apply evaluation_calls_no_update|].
    repeat constructor.
  - eexists b, loss, _. split; [reflexivity|].
    apply evaluation_calls_no_update.
  - eexists b, loss, _. split; [reflexivity|].
    apply evaluation_calls_no_update.
  - eexists b, loss, _. split; [reflexivity|].
    apply Forall_app; split; [apply evaluation_calls_no_update|].
    repeat constructor.
Qed.



Lemma ends_as_broke r st :
  ends_as r (Broke st) -> r = Returned st.
Proof. destruct r; cbn; [congruence|tauto]. Qed.

Lemma ends_as_raised r e st :
  ends_as r (Raised e st) -> r = Failed e st.
Proof. destruct r; cbn; [tauto|]. intros []; congruence. Qed.

Lemma ends_as_normal r st :
  ends_as r (Normal st) -> r = Returned st.
Proof. destruct r; cbn; [congruence|tauto]. Qed.

(** Only the last iteration of a run can end by [break] or by an
    exception. *)
Lemma step_is_last r g (o : outcome) :
  1 <= g <= global_step (final r) ->
  (g < global_step (final r) -> exists st1, o = Normal st1) ->
  (forall st1, o <> Normal st1) ->
  g = global_step (final r).
Proof.
  intros Hg Hn Ho. destruct (Z.eq_dec g (global_step (final r))); auto.
  destruct Hn as (st1 & E); [lia|]. elim (Ho st1 E).
Qed.

(** C3: when the forward pass of a training batch returns a
    not-a-number loss, [train] logs it and returns normally with
    [stop_training] set: the calls of that step are the move of the
    batch, the forward pass and the log line, nothing is called after
    them (no backward pass, no optimizer or scheduler step), and the
    loss buffer is the one the step started with. *)
Theorem train_halts_on_nan_loss g b t loss :
  let r := train args model train_data dev_data h0 in
  In (g, EForward b t loss) (trace (final r)) ->
  is_nan loss = true ->
  exists st epoch st0,
    r = Returned st /\ stop_training st = true /\ global_step st = g /\
    step_of_run r g epoch b st0 /\
    train_losses st = train_losses st0 /\
    calls_at g (trace st) =
      [EBatchTo b torch_device; EForward b true loss;
       ELoggerInfo (LogStopTraining loss)] /\
    trace st = calls_before g (trace st) ++ map (pair g) (calls_at g (trace st)).
Proof.
  cbv zeta. intros Hin Hnan.
  destruct (in_trace_stamp _ _ Hin) as [(_ & [E|E])|Hg]; try discriminate.
  destruct (train_steps Hg) as (epoch & b0 & st0 & Hs).
  apply in_calls_at in Hin. pose proof Hs as Hs'.
  step_cases Hs; rewrite Hcalls in Hin; in_calls Hin.
  all: match goal with
       | E : EForward _ _ _ = EForward _ _ _ |- _ =>
           inversion E; subst; clear E
       end; try congruence.
  assert (Hlast : global_step st0 + 1
                  = global_step (final (train args model train_data
                                              dev_data h0))).
  { eapply step_is_last; eauto. discriminate. }
  apply Hend, ends_as_broke in Hlast.
  rewrite Hlast in *. cbn [final trace global_step] in *.
  eexists _, epoch, st0. split; [reflexivity|].
  cbn [stop_training global_step train_losses trace].
  split; [reflexivity|]. split; [reflexivity|]. split; [exact Hs'|].
  split; [reflexivity|]. split; [exact Hcalls|].
  rewrite <- Hbefore, Hcalls. reflexivity.
Qed.

(** *** The loss buffer *)

Lemma recorded_losses_app tr g evs :
  recorded_losses (tr ++ map (pair g) evs)
  = fold_left record_loss evs (recorded_losses tr).
Proof.
  unfold recorded_losses. rewrite map_app, map_snd_pair, fold_left_app.
  reflexivity.
Qed.

Lemma fold_left_neutral {A B} (f : A -> B -> A) l :
  Forall (fun e => forall acc, f acc e = acc) l ->
  forall acc, fold_left f l acc = acc.
Proof.
  induction 1 as [|e l He _ IH]; intros acc; cbn; [reflexivity|].
  rewrite He. apply IH.
Qed.

Lemma record_loss_update_calls g acc :
  fold_left record_loss (update_calls args g) acc = acc.
Proof.
  apply fold_left_neutral. unfold update_calls.
  destruct (is_multiple _ _); repeat constructor.
Qed.

Lemma record_loss_generation_calls m dev bs outs acc :
  fold_left record_loss (generation_calls m dev bs outs) acc = acc.
Proof.
  apply fold_left_neutral. apply generation_calls_forall; reflexivity.
Qed.

Lemma record_loss_evaluation_calls m outs tl epoch g acc :
  fold_left record_loss (evaluation_calls dev_data m outs tl epoch g) acc
  = [].
Proof.
  unfold evaluation_calls. rewrite !fold_left_app.
  cbn [fold_left record_loss]. reflexivity.
Qed.

Ltac fold_calls :=
  unfold forward_calls, checkpoint_calls;
  rewrite ?fold_left_app; cbn [fold_left];
  rewrite ?record_loss_update_calls, ?record_loss_evaluation_calls;
  cbn [fold_left record_loss].

Lemma iteration_losses epoch b st o :
  iteration epoch b st o ->
  train_losses st = recorded_losses (trace st) ->
  train_losses (state_of o) = recorded_losses (trace (state_of o)).
Proof.
  intros Hit Hinv. inversion Hit; subst;
    repeat match goal with x := _ |- _ => subst x end;
    cbn [state_of train_losses trace];
    rewrite recorded_losses_app, <- Hinv; fold_calls;
    rewrite ?H, ?record_loss_update_calls; try reflexivity.
Qed.

Lemma visited_losses st :
  visited st -> train_losses st = recorded_losses (trace st).
Proof.
  revert st.
  apply (visited_invariant
           (fun st => train_losses st = recorded_losses (trace st)));
    [reflexivity|].
  intros epoch b st0 st' Hv Hinv Hb.
  pose proof (iteration_ok epoch b st0) as Hit. rewrite Hb in Hit.
  exact (iteration_losses Hit Hinv).
Qed.

Lemma split_unique {A} (x : A) l1 r1 l2 r2 :
  l1 ++ x :: r1 = l2 ++ x :: r2 ->
  ~ In x l2 -> ~ In x r2 -> l1 = l2 /\ r1 = r2.
Proof.
  revert l2. induction l1 as [|a l1 IH]; intros [|y l2] E Hl Hr; cbn in *.
  - split; congruence.
  - exfalso. apply Hl. left. congruence.
  - exfalso. apply Hr. injection E as -> <-. apply in_elt.
  - injection E as -> E. destruct (IH l2 E) as (-> & ->); tauto.
Qed.

Lemma not_in_stamped (g : Z) (e : event) evs :
  ~ In e evs -> ~ In (g, e) (map (pair g) evs).
Proof.
  intros Hn Hin. apply Hn. apply in_map_iff in Hin.
  destruct Hin as (e' & E & Hin). congruence.
Qed.

Lemma not_in_calls_at (g : Z) (e : event) tr :
  calls_at g tr = [] -> ~ In (g, e) tr.
Proof.
  intros E Hin. apply in_calls_at in Hin. rewrite E in Hin. exact Hin.
Qed.

Lemma log_step_position tr st0 g b loss m outs tl epoch rest post0 pre post
      (Htr : tr = trace st0
               ++ map (pair g)
                    (forward_calls b loss ++ [EBackward loss]
                       ++ update_calls args g
                       ++ evaluation_calls dev_data m outs tl epoch g
                       ++ rest)
               ++ post0)
      (Hsplit : tr = pre ++ (g, ELoggerInfo
                    (LogStep g tl (metric dev_data)
                             (score_of (map decode_batch outs) * 100)%float
                             epoch)) :: post)
      (Hst : stamps_le (g - 1) (trace st0))
      (Hpost : calls_at g post0 = [])
      (Hrest : Forall (fun e => forall acc, record_loss acc e = acc) rest) :
  pre = trace st0
          ++ map (pair g)
               (forward_calls b loss ++ [EBackward loss]
                  ++ update_calls args g ++ [EModelEval]
                  ++ generation_calls m dev_data (dataloader dev_data) outs
                  ++ [ESavePredictions (map decode_batch outs);
                      EEvaluate (map decode_batch outs)]).
Proof.
  unfold evaluation_calls in Htr.
  set (x := (g, ELoggerInfo _)) in *.
  set (A := forward_calls b loss ++ [EBackward loss]
              ++ update_calls args g ++ [EModelEval]
              ++ generation_calls m dev_data (dataloader dev_data) outs
              ++ [ESavePredictions (map decode_batch outs);
                  EEvaluate (map decode_batch outs)]).
  assert (E : tr = (trace st0 ++ map (pair g) A)
                     ++ x :: (map (pair g) rest ++ post0)).
  { rewrite Htr. subst A x.
    rewrite ?map_app, <- ?app_assoc. cbn [map app]. reflexivity. }
  rewrite E in Hsplit. symmetry in Hsplit.
  apply split_unique in Hsplit; [tauto| |].
  - rewrite in_app_iff. intros [Hin|Hin].
    + pose proof (proj1 (Forall_forall _ _) Hst _ Hin) as Hg. cbn in Hg. lia.
    + subst x. apply in_map_iff in Hin. destruct Hin as (e & Ee & Hin).
      injection Ee as ->. subst A. in_calls Hin.
  - rewrite in_app_iff. intros [Hin|Hin].
    + subst x. apply in_map_iff in Hin. destruct Hin as (e & Ee & Hin).
      injection Ee as ->.
      pose proof (proj1 (Forall_forall _ _) Hrest _ Hin [1%float]) as Hr.
      discriminate Hr.
    + revert Hin. apply not_in_calls_at, Hpost.
Qed.


(** *** The best score *)

Lemma SFltb_trans a b c :
  SFltb a b = true -> SFltb b c = true -> SFltb a c = true.
Proof.
  unfold SFltb.
  destruct a as [sa|sa| |sa ma ea], b as [sb|sb| |sb mb eb],
           c as [sc|sc| |sc mc ec]; cbn;
    try discriminate; try reflexivity;
    repeat match goal with s : bool |- _ => destruct s end; cbn;
    try discriminate; try reflexivity.
  all: destruct (Z.compare_spec ea eb), (Z.compare_spec eb ec),
         (Z.compare_spec ea ec); try lia; try discriminate;
         try reflexivity; subst.
  all: rewrite ?Pos.compare_cont_spec in *; cbn in *.
  all: destruct (Pos.compare_spec ma mb), (Pos.compare_spec mb mc),
         (Pos.compare_spec ma mc); cbn; try lia; try discriminate;
         try reflexivity.
Qed.

Lemma float_ltb_trans (a b c : float) :
  (a <? b)%float = true -> (b <? c)%float = true -> (a <? c)%float = true.
Proof. rewrite !ltb_spec. apply SFltb_trans. Qed.

Lemma float_le_refl a : float_le a a.
Proof. left. reflexivity. Qed.

Lemma float_le_trans a b c : float_le a b -> float_le b c -> float_le a c.
Proof.
  intros [->|Hab] [->|Hbc]; unfold float_le; auto.
  right. eapply float_ltb_trans; eassumption.
Qed.

Lemma best_so_far_app tr g evs :
  best_so_far (tr ++ map (pair g) evs)
  = fold_left better evs (best_so_far tr).
Proof.
  unfold best_so_far. rewrite map_app, map_snd_pair, fold_left_app.
  reflexivity.
Qed.

Lemma better_update_calls g acc :
  fold_left better (update_calls args g) acc = acc.
Proof.
  apply fold_left_neutral. unfold update_calls.
  destruct (is_multiple _ _); repeat constructor.
Qed.

Lemma better_evaluation_calls m outs tl epoch g acc :
  fold_left better (evaluation_calls dev_data m outs tl epoch g) acc
  = better acc (EEvaluate (map decode_batch outs)).
Proof.
  unfold evaluation_calls. rewrite !fold_left_app.
  cbn [fold_left]. rewrite (@fold_left_neutral _ _ better (generation_calls _ _ _ _)).
  - reflexivity.
  - apply generation_calls_forall; reflexivity.
Qed.

Lemma iteration_best epoch b st o :
  iteration epoch b st o ->
  fold_left better (emitted st o) (best_accuracy st)
  = best_accuracy (state_of o).
Proof.
  intros Hit. inversion Hit; subst;
    repeat match goal with x := _ |- _ => subst x end;
    repeat emitted_calls;
    cbn [state_of best_accuracy];
    unfold forward_calls, checkpoint_calls;
    rewrite ?fold_left_app; cbn [fold_left];
    rewrite ?better_update_calls, ?better_evaluation_calls;
    cbn [fold_left better];
    repeat match goal with H : (_ <? _)%float = _ |- _ => rewrite H end;
    reflexivity.
Qed.

Lemma iteration_best_le epoch b st o :
  iteration epoch b st o ->
  float_le (best_accuracy st) (best_accuracy (state_of o)).
Proof.
  intros Hit. inversion Hit; subst; cbn [state_of best_accuracy];
    try apply float_le_refl.
  right. assumption.
Qed.

Lemma iteration_emitted epoch b st o :
  iteration epoch b st o ->
  trace (state_of o)
  = trace st ++ map (pair (global_step st + 1)) (emitted st o).
Proof.
  intros Hit. destruct (iteration_stamps Hit) as (_ & evs & Htr).
  rewrite (emitted_mk _ _ _ Htr). exact Htr.
Qed.

Lemma iteration_best_so_far epoch b st o :
  iteration epoch b st o ->
  best_accuracy st = best_so_far (trace st) ->
  best_accuracy (state_of o) = best_so_far (trace (state_of o)).
Proof.
  intros Hit Hinv.
  rewrite (iteration_emitted Hit), best_so_far_app, <- Hinv.
  symmetry. exact (iteration_best Hit).
Qed.

Lemma visited_best st :
  visited st -> best_accuracy st = best_so_far (trace st).
Proof.
  revert st.
  apply (visited_invariant
           (fun st => best_accuracy st = best_so_far (trace st)));
    [reflexivity|].
  intros epoch b st0 st' Hv Hinv Hb.
  pose proof (iteration_ok epoch b st0) as Hit. rewrite Hb in Hit.
  exact (iteration_best_so_far Hit Hinv).
Qed.

Lemma reaches_le st st' :
  reaches args model dev_data h0 st st' ->
  float_le (best_accuracy st) (best_accuracy st').
Proof.
  induction 1 as [st|st st' epoch b _ IH]; [apply float_le_refl|].
  eapply float_le_trans; [exact IH|].
  apply iteration_best_le with (epoch := epoch) (b := b), iteration_ok.
Qed.

Lemma visited_reaches st :
  visited st -> reaches args model dev_data h0 initial_state st.
Proof.
  induction 1 as [|epoch b st st' _ IH Hb]; [constructor|].
  replace st' with (state_of (body epoch b st)) by (rewrite Hb; reflexivity).
  constructor. exact IH.
Qed.

Lemma train_reaches :
  reaches args model dev_data h0 initial_state
          (final (train args model train_data dev_data h0)).
Proof.
  destruct train_ends as [(st & -> & Hv)|(epoch & b & st0 & Hv & He & _)].
  - apply visited_reaches, Hv.
  - replace (final (train args model train_data dev_data h0))
      with (state_of (body epoch b st0)).
    + constructor. apply visited_reaches, Hv.
    + destruct (train _ _ _ _ _), (body epoch b st0); cbn in He |- *;
        try tauto; try (destruct He); congruence.
Qed.

Lemma position_in_step tr st0 g (x : event) A R post0 pre post
      (Htr : tr = trace st0 ++ map (pair g) (A ++ x :: R) ++ post0)
      (Hsplit : tr = pre ++ (g, x) :: post)
      (Hst : stamps_le (g - 1) (trace st0))
      (Hpost : calls_at g post0 = [])
      (HA : ~ In x A) (HR : ~ In x R) :
  pre = trace st0 ++ map (pair g) A.
Proof.
  assert (E : tr = (trace st0 ++ map (pair g) A)
                     ++ (g, x) :: (map (pair g) R ++ post0)).
  { rewrite Htr, map_app, <- !app_assoc. reflexivity. }
  rewrite E in Hsplit. symmetry in Hsplit.
  apply split_unique in Hsplit; [tauto| |].
  - rewrite in_app_iff. intros [Hin|Hin].
    + pose proof (proj1 (Forall_forall _ _) Hst _ Hin) as Hg. cbn in Hg. lia.
    + revert Hin. apply not_in_stamped, HA.
  - rewrite in_app_iff. intros [Hin|Hin].
    + revert Hin. apply not_in_stamped, HR.
    + revert Hin. apply not_in_calls_at, Hpost.
Qed.

(** C1: [best_accuracy] starts at -1 and is at any time the best score
    of the evaluations made so far.  A checkpoint is written at step
    [g] exactly when the evaluation of step [g] scores strictly above
    the best score of the steps before; it is written to
    [os.path.join(args.output_dir, "best-model.pt")], it is the state
    dict of the model at that moment with every tensor moved to the
    CPU, and from then on the best score is the new one.  Along any
    sequence of iterations [best_accuracy] never decreases. *)
Theorem train_checkpoints_best_model :
  let r := train args model train_data dev_data h0 in
  let tr := trace (final r) in
  best_accuracy initial_state = (-1)%float /\
  best_accuracy (final r) = best_so_far tr /\
  (forall g preds,
      In (g, EEvaluate preds) tr ->
      ((exists obj path, In (g, ETorchSave obj path) tr) <->
       (best_so_far (calls_before g tr) <? score_of preds)%float = true)) /\
  (forall pre post g obj path,
      tr = pre ++ (g, ETorchSave obj path) :: post ->
      path = os_path_join (Args.output_dir args) "best-model.pt" /\
      obj = map (fun kv => (fst kv, cpu (snd kv)))
                (state_dict (h0 ++ map snd pre)) /\
      Forall (fun kv => device_of (snd kv) = Cpu) obj /\
      exists preds,
        In (g, EEvaluate preds) pre /\
        best_so_far (calls_before (g + 1) tr) = score_of preds) /\
  (forall st st',
      reaches args model dev_data h0 st st' ->
      float_le (best_accuracy st) (best_accuracy st')) /\
  reaches args model dev_data h0 initial_state (final r).
Proof.
  cbv zeta. split; [reflexivity|]. split.
  { apply (train_invariant
             (fun st => best_accuracy st = best_so_far (trace st)));
      [reflexivity|].
    intros epoch b st Hv Hinv.
    exact (iteration_best_so_far (iteration_ok epoch b st) Hinv). }
  split; [|split; [|split; [exact reaches_le|exact train_reaches]]].
  - intros g preds Hin.
    destruct (in_trace_stamp _ _ Hin) as [(_ & [E|E])|Hg]; try discriminate.
    destruct (train_steps Hg) as (epoch & b & st0 & Hs).
    apply in_calls_at in Hin.
    step_cases Hs; rewrite Hcalls in Hin; in_calls Hin.
    all: match goal with
         | E : EEvaluate _ = EEvaluate _ |- _ =>
             inversion E; subst; clear E
         end.
    all: rewrite <- Hbefore, <- (visited_best Hvis).
    all: split;
      [ intros (obj & path & Hsave); apply in_calls_at in Hsave;
        rewrite Hcalls in Hsave; in_calls Hsave; try assumption
      | intros Hlt; try congruence ].
    do 2 eexists. apply in_calls_at. rewrite Hcalls.
    unfold checkpoint_calls. rewrite !in_app_iff. cbn. eauto.
  - intros pre post g obj path Hsplit.
    assert (Hin : In (g, ETorchSave obj path)
                     (trace (final (train args model train_data dev_data h0)))).
    { rewrite Hsplit. apply in_elt. }
    destruct (in_trace_stamp _ _ Hin) as [(_ & [E|E])|Hg]; try discriminate.
    destruct (train_steps Hg) as (epoch & b & st0 & Hs).
    apply in_calls_at in Hin.
    step_cases Hs; rewrite Hcalls in Hin; in_calls Hin.
    match goal with
    | E : ETorchSave _ _ = ETorchSave _ _ |- _ => inversion E; clear E
    end.
    subst obj path.
    assert (Hpre : pre = trace st0
                     ++ map (pair (global_step st0 + 1))
                          (forward_calls b loss ++ [EBackward loss]
                             ++ update_calls args (global_step st0 + 1)
                             ++ evaluation_calls
                                  dev_data m outs
                                  (np_mean (train_losses st0 ++ [loss]))
                                  epoch (global_step st0 + 1))).
    { unfold checkpoint_calls in Htrace. cbn [app] in Htrace.
      destruct (visited_facts Hvis) as (_ & _ & Hst).
      refine (@position_in_step _ _ _ _ _ _ _ _ _ Htrace Hsplit _ Hpost _ _).
      - replace (global_step st0 + 1 - 1) with (global_step st0) by lia.
        exact Hst.
      - intros Hin'. in_calls Hin'.
      - intros Hin'. cbn in Hin'. intuition discriminate. }
    split; [reflexivity|]. split.
    { rewrite Hpre, map_app, map_snd_pair. reflexivity. }
    split.
    { apply Forall_forall. intros kv Hkv. apply in_map_iff in Hkv.
      destruct Hkv as (kv' & <- & _). reflexivity. }
    exists (map decode_batch outs). split.
    { rewrite Hpre. apply in_or_app. right. apply in_map.
      unfold evaluation_calls. rewrite !in_app_iff. cbn. auto 10. }
    destruct Hs as (_ & _ & _ & <- & _). rewrite Hbody. cbn [state_of].
    pose proof (iteration_best_so_far (iteration_ok epoch b st0)
                                      (visited_best Hvis)) as Hbest.
    rewrite Hbody in Hbest. cbn [state_of best_accuracy] in Hbest.
    symmetry. exact Hbest.
Qed.

(** *** The wait counter *)

Lemma iteration_wait epoch b st o :
  iteration epoch b st o ->
  (wait_step st = None <-> never_saved (trace st)) ->
  (wait_step (state_of o) = None <-> never_saved (trace (state_of o))).
Proof.
  intros Hit Hinv. unfold never_saved in *.
  inversion Hit; subst;
    repeat match goal with x := _ |- _ => subst x end;
    cbn [state_of wait_step trace].
  all: split;
    [ intros Hw g' obj path Hin; apply in_app_or in Hin;
      destruct Hin as [Hin|Hin];
      [ try discriminate Hw;
        revert Hin; apply Hinv; solve [assumption | congruence]
      | try discriminate Hw;
        apply in_map_iff in Hin; destruct Hin as (e & Ee & Hin);
        injection Ee as _ ->; in_calls Hin ]
    | intros Hn; try reflexivity; try assumption ].
  all: assert (Hold : wait_step st = None)
    by (apply Hinv; intros g' obj path Hin; apply (Hn g' obj path);
        apply in_or_app; left; exact Hin).
  all: try assumption; try congruence.
  exfalso. eapply Hn. apply in_or_app. right. apply in_map.
  unfold checkpoint_calls. rewrite !in_app_iff. cbn. eauto.
Qed.

Lemma visited_unevaluated st :
  visited st -> never_evaluated (trace st) ->
  wait_step st = None /\ best_accuracy st = (-1)%float.
Proof.
  revert st.
  apply (visited_invariant
           (fun st => never_evaluated (trace st) ->
                      wait_step st = None /\ best_accuracy st = (-1)%float)).
  { intros _. split; reflexivity. }
  intros epoch b st st' Hv Hinv Hb Hne.
  pose proof (iteration_ok epoch b st) as Hit. rewrite Hb in Hit.
  unfold never_evaluated in *.
  inversion Hit; subst;
    repeat match goal with x := _ |- _ => subst x end;
    cbn [wait_step best_accuracy trace] in *.
  2-3: exfalso;
    apply (Hne (global_step st + 1) (map decode_batch outs)); find_call.
  apply Hinv. intros g' preds Hin. apply (Hne g' preds).
  apply in_or_app. left. exact Hin.
Qed.

(** C8: [wait_step] is bound only by the branch that saves a
    checkpoint: it is unbound exactly as long as none was written.
    When the first evaluation of a run does not score strictly above
    the initial best score -1, [train] does not return: it raises the
    unbound-local error for [wait_step], at that step. *)
Theorem train_unbound_wait_step :
  let r := train args model train_data dev_data h0 in
  (wait_step (final r) = None <-> never_saved (trace (final r))) /\
  forall g preds,
    In (g, EEvaluate preds) (trace (final r)) ->
    never_evaluated (calls_before g (trace (final r))) ->
    ((-1) <? score_of preds)%float = false ->
    exists st,
      r = Failed (UnboundLocalError "wait_step") st /\
      global_step st = g /\ wait_step st = None /\
      best_accuracy st = (-1)%float.
Proof.
  cbv zeta. split.
  { apply (train_invariant
             (fun st => wait_step st = None <-> never_saved (trace st))).
    - split; [|reflexivity]. intros _ g obj path Hin. cbn in Hin.
      intuition discriminate.
    - intros epoch b st Hv Hinv.
      exact (iteration_wait (iteration_ok epoch b st) Hinv). }
  intros g preds Hin Hfirst Hscore.
  destruct (in_trace_stamp _ _ Hin) as [(_ & [E|E])|Hg]; try discriminate.
  destruct (train_steps Hg) as (epoch & b & st0 & Hs).
  apply in_calls_at in Hin.
  step_cases Hs; rewrite Hcalls in Hin; in_calls Hin.
  all: match goal with
       | E : EEvaluate _ = EEvaluate _ |- _ => inversion E; subst; clear E
       end.
  all: rewrite <- Hbefore in Hfirst.
  all: destruct (visited_unevaluated Hvis Hfirst) as (Hw & Hbest).
  all: try congruence.
  assert (Hlast : global_step st0 + 1
                  = global_step (final (train args model train_data
                                              dev_data h0))).
  { eapply step_is_last; eauto. discriminate. }
  apply Hend, ends_as_raised in Hlast.
  eexists. split; [exact Hlast|]. cbn. auto.
Qed.

(** C2 as the code has it: an evaluation that scores strictly above
    [best_accuracy] binds the wait counter to zero and training goes
    on.  One that does not, while the counter is bound, adds one to the
    counter; when the new value has reached [args.wait_step] ([>=])
    the iteration breaks with [stop_training] set and [train] returns
    normally, with no further call; otherwise training goes on. *)
Theorem train_early_stopping g preds :
  let r := train args model train_data dev_data h0 in
  In (g, EEvaluate preds) (trace (final r)) ->
  exists epoch b st0,
    step_of_run r g epoch b st0 /\
    let o := train_batch args model dev_data h0 epoch b st0 in
    if (best_accuracy st0 <? score_of preds)%float then
      wait_step (state_of o) = Some 0 /\ o = Normal (state_of o)
    else
      match wait_step st0 with
      | Some w =>
          wait_step (state_of o) = Some (w + 1) /\
          if w + 1 >=? Args.wait_step args then
            o = Broke (state_of o) /\ stop_training (state_of o) = true /\
            r = Returned (state_of o)
          else o = Normal (state_of o)
      | None => True
      end.
Proof.
  cbv zeta. intros Hin.
  destruct (in_trace_stamp _ _ Hin) as [(_ & [E|E])|Hg]; try discriminate.
  destruct (train_steps Hg) as (epoch & b & st0 & Hs).
  apply in_calls_at in Hin. pose proof Hs as Hs'.
  exists epoch, b, st0. split; [exact Hs|].
  step_cases Hs; rewrite Hcalls in Hin; in_calls Hin.
  all: match goal with
       | E : EEvaluate _ = EEvaluate _ |- _ => inversion E; subst; clear E
       end.
  all: rewrite Hbody; cbn [state_of wait_step stop_training].
  all: repeat match goal with
              | H : (_ <? _)%float = _ |- _ => rewrite H
              | H : wait_step _ = _ |- _ => rewrite H
              end; auto.
  - split; [reflexivity|].
    destruct (Z.geb_spec (w + 1) (Args.wait_step args)); [|lia].
    split; [reflexivity|]. split; [reflexivity|].
    apply ends_as_broke, Hend. eapply step_is_last; eauto. discriminate.
  - split; [reflexivity|].
    destruct (Z.geb_spec (w + 1) (Args.wait_step args)); [lia|reflexivity].
Qed.

(** *** No checkpoint is read *)

Lemma train_never_loads g path :
  ~ In (g, ELoadStateDict path)
       (trace (final (train args model train_data dev_data h0))).
Proof.
  intros Hin.
  destruct (in_trace_stamp _ _ Hin) as [(_ & [E|E])|Hg]; try discriminate.
  destruct (train_steps Hg) as (epoch & b & st0 & Hs).
  apply in_calls_at in Hin.
  step_cases Hs; rewrite Hcalls in Hin; in_calls Hin.
Qed.

(** *** A zero modulus, a missing attribute *)

Lemma is_multiple_nonzero g n : is_multiple g n = true -> n <> 0.
Proof. intros H. apply is_multiple_spec in H. tauto. Qed.

(** With a zero modulus no iteration falls through, so the loops never
    get past the state they start in. *)
Lemma zero_modulus_visited st :
  Args.gradient_accumulation_steps args = 0 \/ Args.eval_period args = 0 ->
  visited st -> st = initial_state.
Proof.
  intros Hz Hv. destruct Hv as [|epoch b st st' _ Hb]; [reflexivity|].
  pose proof (iteration_ok epoch b st) as Hit. rewrite Hb in Hit.
  inversion Hit; subst;
    repeat match goal with
           | H : is_multiple _ _ = true |- _ =>
               apply is_multiple_nonzero in H
           end;
    tauto.
Qed.

(** X1: with [args.gradient_accumulation_steps] zero, the first
    iteration whose loss is a number raises [ZeroDivisionError] right
    after [loss.backward()]: it is the first iteration of the run, the
    loss is in the buffer, and neither an optimizer step nor an
    evaluation was made. *)
Theorem train_zero_accumulation_steps g loss :
  let r := train args model train_data dev_data h0 in
  Args.gradient_accumulation_steps args = 0 ->
  In (g, EBackward loss) (trace (final r)) ->
  g = 1 /\
  exists st b,
    r = Failed ZeroDivisionError st /\ global_step st = 1 /\
    train_losses st = [loss] /\
    trace st = trace initial_state
                 ++ map (pair 1) (forward_calls b loss ++ [EBackward loss]).
Proof.
  cbv zeta. intros Hz Hin.
  destruct (in_trace_stamp _ _ Hin) as [(_ & [E|E])|Hg]; try discriminate.
  destruct (train_steps Hg) as (epoch & b & st0 & Hs).
  apply in_calls_at in Hin.
  step_cases Hs; rewrite Hcalls in Hin; try congruence; in_calls Hin.
  match goal with
  | E : EBackward _ = EBackward _ |- _ => inversion E; subst; clear E
  end.
  rewrite (zero_modulus_visited (or_introl Hz) Hvis) in *.
  cbn [initial_state global_step train_losses trace app] in *.
  split; [reflexivity|].
  assert (Hlast : 0 + 1
                  = global_step (final (train args model train_data
                                              dev_data h0))).
  { eapply step_is_last; eauto. discriminate. }
  apply Hend, ends_as_raised in Hlast.
  eexists _, b. split; [exact Hlast|]. cbn. auto.
Qed.

(** X2: with [args.eval_period] zero (and the accumulation steps not),
    the first iteration whose loss is a number raises
    [ZeroDivisionError] after the update calls that are due at step
    1, and before any evaluation. *)
Theorem train_zero_eval_period g loss :
  let r := train args model train_data dev_data h0 in
  Args.eval_period args = 0 ->
  Args.gradient_accumulation_steps args <> 0 ->
  In (g, EBackward loss) (trace (final r)) ->
  g = 1 /\
  exists st b,
    r = Failed ZeroDivisionError st /\ global_step st = 1 /\
    trace st = trace initial_state
                 ++ map (pair 1)
                      (forward_calls b loss ++ [EBackward loss]
                         ++ update_calls args 1) /\
    never_evaluated (trace st).
Proof.
  cbv zeta. intros Hz Hnz Hin.
  destruct (in_trace_stamp _ _ Hin) as [(_ & [E|E])|Hg]; try discriminate.
  destruct (train_steps Hg) as (epoch & b & st0 & Hs).
  apply in_calls_at in Hin.
  step_cases Hs; rewrite Hcalls in Hin; try congruence;
    repeat match goal with
           | H : is_multiple _ (Args.eval_period args) = true |- _ =>
               apply is_multiple_nonzero in H
           end; try tauto; in_calls Hin.
  match goal with
  | E : EBackward _ = EBackward _ |- _ => inversion E; subst; clear E
  end.
  rewrite (zero_modulus_visited (or_intror Hz) Hvis) in *.
  cbn [initial_state global_step train_losses trace app] in *.
  split; [reflexivity|].
  assert (Hlast : 0 + 1
                  = global_step (final (train args model train_data
                                              dev_data h0))).
  { eapply step_is_last; eauto. discriminate. }
  apply Hend, ends_as_raised in Hlast.
  eexists _, b. split; [exact Hlast|]. cbn [global_step trace].
  split; [reflexivity|]. split; [reflexivity|].
  intros g' preds Hin'. cbn [In] in Hin'.
  destruct Hin' as [E|[E|Hin']]; try discriminate.
  apply in_map_iff in Hin'. destruct Hin' as (e & Ee & Hin').
  injection Ee as _ ->. in_calls Hin'.
Qed.

Lemma in_iteration_trace epoch b st o g (e : event) :
  iteration epoch b st o ->
  In (g, e) (trace (state_of o)) ->
  In (g, e) (trace st) \/ (g = global_step st + 1 /\ In e (emitted st o)).
Proof.
  intros Hit Hin. rewrite (iteration_emitted Hit) in Hin.
  apply in_app_or in Hin. destruct Hin as [Hin|Hin]; [left; exact Hin|].
  right. apply in_map_iff in Hin. destruct Hin as (e' & E & Hin).
  injection E as <- <-. auto.
Qed.

Ltac iteration_cases Hit :=
  inversion Hit; subst;
  repeat match goal with x := _ |- _ => subst x end;
  repeat emitted_calls.

Lemma missing_module_iteration epoch b st o :
  eval_model args model = None ->
  iteration epoch b st o ->
  never_evaluated (trace st) /\ never_saved (trace st) ->
  never_evaluated (trace (state_of o)) /\ never_saved (trace (state_of o)).
Proof.
  intros Hm Hit (He & Hs). split.
  - intros g preds Hin. apply (@in_iteration_trace _ _ _ _ _ _ Hit) in Hin.
    destruct Hin as [Hin|(_ & Hin)]; [exact (He _ _ Hin)|].
    iteration_cases Hit; try congruence; in_calls Hin.
  - intros g obj path Hin. apply (@in_iteration_trace _ _ _ _ _ _ Hit) in Hin.
    destruct Hin as [Hin|(_ & Hin)]; [exact (Hs _ _ _ Hin)|].
    iteration_cases Hit; try congruence; in_calls Hin.
Qed.

(** X3: when [args.n_gpu] is not 1 and the model object has no
    attribute [module], the first evaluation step raises
    [AttributeError]: [model.eval()] is its last call, so nothing was
    generated, saved or scored in the whole run. *)
Theorem train_missing_module g :
  let r := train args model train_data dev_data h0 in
  eval_model args model = None ->
  In (g, EModelEval) (trace (final r)) ->
  (Args.n_gpu args <> 1 /\ module model = None) /\
  exists st pre,
    r = Failed (AttributeError "module") st /\ global_step st = g /\
    trace st = pre ++ [(g, EModelEval)] /\
    never_evaluated (trace st) /\ never_saved (trace st).
Proof.
  cbv zeta. intros Hm Hin. split.
  { unfold eval_model in Hm. destruct (Z.eqb_spec (Args.n_gpu args) 1);
      [discriminate|auto]. }
  assert (Hnone :
            never_evaluated
              (trace (final (train args model train_data dev_data h0))) /\
            never_saved
              (trace (final (train args model train_data dev_data h0)))).
  { apply (train_invariant
             (fun st => never_evaluated (trace st) /\ never_saved (trace st))).
    - split; [intros g' ? Hin'|intros g' ? ? Hin'];
        cbn in Hin'; intuition discriminate.
    - intros epoch b st _ HP.
      exact (missing_module_iteration Hm (iteration_ok epoch b st) HP). }
  destruct (in_trace_stamp _ _ Hin) as [(_ & [E|E])|Hg]; try discriminate.
  destruct (train_steps Hg) as (epoch & b & st0 & Hs).
  apply in_calls_at in Hin.
  step_cases Hs; rewrite Hcalls in Hin; try congruence;
    try (in_calls Hin; fail).
  assert (Hlast : global_step st0 + 1
                  = global_step (final (train args model train_data
                                              dev_data h0))).
  { eapply step_is_last; eauto. discriminate. }
  apply Hend, ends_as_raised in Hlast.
  rewrite Hlast in Hnone. cbn [final] in Hnone.
  eexists _, _. split; [exact Hlast|]. cbn [global_step trace].
  split; [reflexivity|]. split; [|exact Hnone].
  rewrite !map_app, !app_assoc. reflexivity.
Qed.

(** *** Counting the steps *)

Lemma for_batches_steps epoch bs : forall st,
  let o := for_batches args model dev_data h0 epoch bs st in
  global_step st <= global_step (state_of o)
    <= global_step st + Z.of_nat (List.length bs) /\
  (bs <> [] -> global_step st < global_step (state_of o)) /\
  match o with
  | Normal st' =>
      global_step st' = global_step st + Z.of_nat (List.length bs)
  | Broke st' => stop_training st' = true
  | Raised _ _ => True
  end.
Proof.
  induction bs as [|b bs IH]; intros st; cbv zeta.
  { cbn. repeat split; try lia. congruence. }
  cbn [for_batches List.length]. rewrite Nat2Z.inj_succ.
  pose proof (iteration_ok epoch b st) as Hit.
  destruct (iteration_stamps Hit) as (Hg & _).
  destruct (body epoch b st) as [st'|st'|e st'] eqn:Hb; cbn [state_of] in *.
  - specialize (IH st'). cbv zeta in IH. destruct IH as (IH1 & _ & IH2).
    split; [lia|]. split; [lia|].
    destruct (for_batches _ _ _ _ _ _ _); auto. lia.
  - split; [lia|]. split; [lia|]. exact (iteration_broke Hit).
  - split; [lia|]. split; [lia|]. exact I.
Qed.

Lemma for_epochs_steps epochs : forall st,
  let o := for_epochs args model train_data dev_data h0 epochs st in
  let n := Z.of_nat (List.length epochs)
           * Z.of_nat (List.length (dataloader train_data)) in
  global_step st <= global_step (state_of o) <= global_step st + n /\
  (epochs <> [] -> dataloader train_data <> [] ->
   global_step st < global_step (state_of o)) /\
  match o with
  | Normal st' => global_step st' = global_step st + n
  | Broke st' => stop_training st' = true
  | Raised _ _ => True
  end.
Proof.
  induction epochs as [|epoch epochs IH]; intros st; cbv zeta.
  { cbn. repeat split; try lia. congruence. }
  cbn [for_epochs List.length]. rewrite Nat2Z.inj_succ, Z.mul_succ_l.
  pose proof (for_batches_steps epoch (dataloader train_data) st) as Hb.
  cbv zeta in Hb. destruct Hb as (Hb1 & Hb2 & Hb3).
  set (m := Z.of_nat (List.length (dataloader train_data))) in *.
  assert (Hm : 0 <= m) by apply Nat2Z.is_nonneg.
  assert (Hn : 0 <= Z.of_nat (List.length epochs) * m)
    by (apply Z.mul_nonneg_nonneg; [apply Nat2Z.is_nonneg|exact Hm]).
  destruct (for_batches _ _ _ _ _ _ _) as [st'|st'|e st'];
    cbn [state_of] in *.
  - destruct (stop_training st') eqn:Hs; cbn [state_of].
    + repeat split; auto; lia.
    + specialize (IH st'). cbv zeta in IH. fold m in IH.
      destruct IH as (IH1 & _ & IH2).
      split; [lia|]. split; [intros _ Hd; specialize (Hb2 Hd); lia|].
      destruct (for_epochs _ _ _ _ _ _ _); auto. lia.
  - rewrite Hb3. cbn [state_of]. repeat split; auto; lia.
  - repeat split; auto; lia.
Qed.

Lemma py_range_length n : Z.of_nat (List.length (py_range n)) = Z.max 0 n.
Proof. unfold py_range. rewrite length_map, length_seq. lia. Qed.

(** X4: [global_step] counts the iterations of the inner loop: it ends
    between 0 and the number of epochs times the number of training
    batches, and at exactly that product when [train] returns without
    [stop_training] set.  It is still 0 at the end exactly when there
    was no epoch or no batch, and then [train] returns the state it
    started with, having called nothing but [model.train()] and the
    logger. *)
Theorem train_step_count :
  let r := train args model train_data dev_data h0 in
  let total := Z.max 0 (Args.num_train_epochs args)
               * Z.of_nat (List.length (dataloader train_data)) in
  0 <= global_step (final r) <= total /\
  (forall st, r = Returned st -> stop_training st = false ->
              global_step st = total) /\
  (global_step (final r) = 0 <->
   Args.num_train_epochs args <= 0 \/ dataloader train_data = []) /\
  (global_step (final r) = 0 -> r = Returned initial_state).
Proof.
  cbv zeta. unfold train.
  pose proof (for_epochs_steps (py_range (Args.num_train_epochs args))
                initial_state) as H.
  cbv zeta in H. rewrite py_range_length in H.
  cbn [initial_state global_step] in H. destruct H as (H1 & H2 & H3).
  assert (Hfirst : global_step
                     (state_of (for_epochs args model train_data dev_data h0
                                  (py_range (Args.num_train_epochs args))
                                  initial_state)) = 0 ->
                   for_epochs args model train_data dev_data h0
                     (py_range (Args.num_train_epochs args)) initial_state
                   = Normal initial_state).
  { intros E0.
    assert (Hz : Args.num_train_epochs args <= 0 \/
                 dataloader train_data = []).
    { destruct (Z_le_gt_dec (Args.num_train_epochs args) 0); [auto|].
      destruct (dataloader train_data) eqn:Hd; [auto|]. exfalso.
      assert (py_range (Args.num_train_epochs args) <> []).
      { intros E. apply (f_equal (@List.length Z)) in E.
        apply (f_equal Z.of_nat) in E. rewrite py_range_length in E.
        cbn in E. lia. }
      assert (0 < 0); [|lia]. rewrite <- E0 at 2. apply H2; congruence. }
    clear - Hz. destruct Hz as [Hz|Hz].
    - unfold py_range. replace (Z.to_nat _) with 0%nat by lia. reflexivity.
    - induction (py_range _) as [|epoch epochs IH]; [reflexivity|].
      cbn [for_epochs]. rewrite Hz. cbn. exact IH. }
  destruct (for_epochs _ _ _ _ _ _ _) as [st'|st'|e st'] eqn:Hf;
    cbn [final state_of] in *.
  all: split; [lia|]; split;
    [ intros st E Hs; inversion E; subst; congruence || lia
    | split;
      [ split;
        [ intros E0; destruct (Z_le_gt_dec (Args.num_train_epochs args) 0);
          [auto|]; destruct (dataloader train_data) eqn:Hd; [auto|];
          exfalso;
          assert (py_range (Args.num_train_epochs args) <> [])
            by (intros E; apply (f_equal (@List.length Z)) in E;
                apply (f_equal Z.of_nat) in E;
                rewrite py_range_length in E; cbn in E; lia);
          assert (0 < global_step st') by (apply H2; congruence); lia
        | intros [Hz|Hz];
          [ replace (Z.max 0 (Args.num_train_epochs args)) with 0 in H1
              by lia; lia
          | rewrite Hz in H1; cbn in H1; lia ] ]
      | intros E0; specialize (Hfirst E0); congruence ] ].
Qed.

(** *** Counting the calls *)

Lemma count_calls_app p tr g evs :
  count_calls p (tr ++ map (pair g) evs)
  = count_calls p tr + Z.of_nat (List.length (filter p evs)).
Proof.
  unfold count_calls.
  rewrite map_app, map_snd_pair, filter_app, length_app. lia.
Qed.

Lemma filter_none {A} (p : A -> bool) l :
  (forall x, In x l -> p x = false) -> filter p l = [].
Proof.
  induction l as [|x l IH]; intros H; cbn; [reflexivity|].
  rewrite (H x (or_introl eq_refl)). apply IH. intros y Hy.
  apply H. right. exact Hy.
Qed.

(** Every iteration starts with the move of its batch to the device
    and one forward pass, and makes no other forward pass. *)
Lemma iteration_forward epoch b st o :
  iteration epoch b st o ->
  exists loss rest,
    emitted st o = forward_calls b loss ++ rest /\
    filter is_forward rest = [].
Proof.
  intros Hit. iteration_cases Hit; eexists _, _;
    (split; [reflexivity|]);
    apply filter_none; intros e Hin; in_calls Hin; subst; reflexivity.
Qed.

(** X5: every iteration of the inner loop makes exactly one forward
    pass, in training mode: the forward passes of a run are as many as
    [global_step] at its end, one at each step. *)
Theorem train_forward_per_step :
  let r := train args model train_data dev_data h0 in
  count_calls is_forward (trace (final r)) = global_step (final r) /\
  forall g, 1 <= g <= global_step (final r) ->
    exists b loss,
      filter is_forward (calls_at g (trace (final r)))
      = [EForward b true loss].
Proof.
  cbv zeta. split.
  - apply (train_invariant
             (fun st => count_calls is_forward (trace st) = global_step st)).
    + reflexivity.
    + intros epoch b st _ IH.
      pose proof (iteration_ok epoch b st) as Hit.
      destruct (iteration_stamps Hit) as (Hg & _).
      destruct (iteration_forward Hit) as (loss & rest & He & Hr).
      rewrite (iteration_emitted Hit), count_calls_app, He, filter_app, Hr.
      cbn. lia.
  - intros g Hg. destruct (train_steps Hg) as (epoch & b & st0 & Hs).
    destruct (step_view Hs) as (o & _ & _ & Hit & _ & _ & _ & Hc & _).
    destruct (iteration_forward Hit) as (loss & rest & He & Hr).
    exists b, loss. rewrite Hc, He, filter_app, Hr. reflexivity.
Qed.

Lemma next_multiple n a :
  a <> 0 ->
  (n + 1) / Z.abs a
  = n / Z.abs a + (if is_multiple (n + 1) a then 1 else 0).
Proof.
  intros Ha. assert (Hd : 0 < Z.abs a) by lia.
  pose proof (Z.div_mod n (Z.abs a) ltac:(lia)) as Hn.
  pose proof (Z.mod_pos_bound n (Z.abs a) Hd) as Hr.
  destruct (is_multiple (n + 1) a) eqn:Hm.
  - apply is_multiple_spec in Hm. destruct Hm as (_ & Hm).
    apply Z.divide_abs_l in Hm. apply Z.mod_divide in Hm; [|lia].
    pose proof (Z.div_mod (n + 1) (Z.abs a) ltac:(lia)) as Hn1.
    rewrite Hm in Hn1. nia.
  - symmetry. apply Z.div_unique with (r := n mod Z.abs a + 1); [|lia].
    left. split; [lia|].
    destruct (Z.eq_dec (n mod Z.abs a + 1) (Z.abs a)) as [E|]; [|lia].
    exfalso. assert (Hm' : is_multiple (n + 1) a = true); [|congruence].
    apply is_multiple_spec. split; [exact Ha|].
    apply Z.divide_abs_l. exists (n / Z.abs a + 1). lia.
Qed.

(** What an iteration adds to the backward passes and the optimizer
    steps of a run, when the accumulation steps are not zero. *)
Lemma iteration_updates epoch b st o :
  Args.gradient_accumulation_steps args <> 0 ->
  iteration epoch b st o ->
  (stop_training (state_of o) = true /\
   (forall st', o <> Normal st') /\
   filter is_backward (emitted st o) = [] /\
   filter is_optimizer_step (emitted st o) = []) \/
  (Z.of_nat (List.length (filter is_backward (emitted st o))) = 1 /\
   Z.of_nat (List.length (filter is_optimizer_step (emitted st o)))
   = if is_multiple (global_step st + 1)
                    (Args.gradient_accumulation_steps args)
     then 1 else 0).
Proof.
  intros Ha Hit. iteration_cases Hit; try tauto.
  { left. split; [reflexivity|]. split; [discriminate|].
    split; reflexivity. }
  all: right; unfold forward_calls, checkpoint_calls;
    rewrite ?filter_app; cbn [filter is_backward is_optimizer_step];
    rewrite ?(@filter_none _ is_backward (update_calls _ _)),
      ?(@filter_none _ is_backward (evaluation_calls _ _ _ _ _ _)),
      ?(@filter_none _ is_optimizer_step (evaluation_calls _ _ _ _ _ _))
      by (intros e Hin; in_calls Hin; subst; reflexivity);
    (split; [reflexivity|]);
    unfold update_calls;
    destruct (is_multiple _ (Args.gradient_accumulation_steps args));
    reflexivity.
Qed.

(** X6: when [args.gradient_accumulation_steps] is not zero, the
    optimizer makes one step for every [|gradient_accumulation_steps|]
    backward passes, rounded down; every step of the run has a backward
    pass, except a last one that stopped on a not-a-number loss. *)
Theorem train_optimizer_steps :
  let r := train args model train_data dev_data h0 in
  Args.gradient_accumulation_steps args <> 0 ->
  count_calls is_optimizer_step (trace (final r))
  = count_calls is_backward (trace (final r))
    / Z.abs (Args.gradient_accumulation_steps args) /\
  (count_calls is_backward (trace (final r)) = global_step (final r) \/
   count_calls is_backward (trace (final r)) = global_step (final r) - 1
   /\ stop_training (final r) = true).
Proof.
  cbv zeta. intros Ha.
  set (P := fun st : state =>
              count_calls is_optimizer_step (trace st)
              = count_calls is_backward (trace st)
                / Z.abs (Args.gradient_accumulation_steps args) /\
              (count_calls is_backward (trace st) = global_step st \/
               count_calls is_backward (trace st) = global_step st - 1
               /\ stop_training st = true)).
  assert (Hstep : forall epoch b st,
             visited st ->
             P st /\ count_calls is_backward (trace st) = global_step st ->
             P (state_of (body epoch b st)) /\
             forall st', body epoch b st = Normal st' ->
                         count_calls is_backward (trace st')
                         = global_step st').
  { intros epoch b st Hv ((Ho & _) & Hb).
    pose proof (iteration_ok epoch b st) as Hit.
    destruct (iteration_stamps Hit) as (Hg & _).
    unfold P. rewrite (iteration_emitted Hit), !count_calls_app, Hg.
    destruct (iteration_updates Ha Hit)
      as [(Hs & Hn & -> & ->)|(Eb & Eo)].
    - cbn [List.length filter]. rewrite !Z.add_0_r.
      split; [split; [exact Ho|right; split; [lia|exact Hs]]|].
      intros st' E. elim (Hn st' E).
    - rewrite Eb, Eo, Ho, Hb, next_multiple by exact Ha.
      split; [split; [reflexivity|left; reflexivity]|].
      intros st' E. rewrite E in *.
      pose proof (iteration_emitted Hit) as Ht. cbn [state_of] in *.
      rewrite Ht, count_calls_app, Eb, Hb, Hg. reflexivity. }
  assert (Hv : forall st,
             visited st ->
             P st /\ count_calls is_backward (trace st) = global_step st).
  { apply (visited_invariant
             (fun st => P st /\
                        count_calls is_backward (trace st) = global_step st)).
    - unfold P. cbn. auto.
    - intros epoch b st st' Hvis IH Hb.
      destruct (Hstep epoch b st Hvis IH) as (HP & Hn).
      rewrite Hb in HP. cbn [state_of] in HP. auto. }
  change (P (final (train args model train_data dev_data h0))).
  apply train_invariant.
  - unfold P. cbn. auto.
  - intros epoch b st Hvis _. apply Hstep; auto.
Qed.

(** *** The wait counter and the mode of the model *)

Lemma evaluations_since_save_app tr g evs :
  evaluations_since_save (tr ++ map (pair g) evs)
  = fold_left count_wait evs (evaluations_since_save tr).
Proof.
  unfold evaluations_since_save.
  rewrite map_app, map_snd_pair, fold_left_app. reflexivity.
Qed.

Lemma count_wait_update_calls g acc :
  fold_left count_wait (update_calls args g) acc = acc.
Proof.
  apply fold_left_neutral. unfold update_calls.
  destruct (is_multiple _ _); repeat constructor.
Qed.

Lemma count_wait_evaluation_calls m outs tl epoch g acc :
  fold_left count_wait (evaluation_calls dev_data m outs tl epoch g) acc
  = option_map Z.succ acc.
Proof.
  unfold evaluation_calls. rewrite !fold_left_app.
  cbn [fold_left].
  rewrite (@fold_left_neutral _ _ count_wait (generation_calls _ _ _ _)).
  - reflexivity.
  - apply generation_calls_forall; reflexivity.
Qed.

Lemma iteration_wait_count epoch b st o :
  iteration epoch b st o ->
  wait_step st = evaluations_since_save (trace st) /\
  (forall w, wait_step st = Some w -> 0 <= w) ->
  wait_step (state_of o) = evaluations_since_save (trace (state_of o)) /\
  (forall w, wait_step (state_of o) = Some w -> 0 <= w).
Proof.
  intros Hit (IH & Hw).
  rewrite (iteration_emitted Hit), evaluations_since_save_app, <- IH.
  iteration_cases Hit; cbn [state_of wait_step];
    unfold forward_calls, checkpoint_calls;
    rewrite ?fold_left_app; cbn [fold_left count_wait];
    rewrite ?count_wait_update_calls, ?count_wait_evaluation_calls;
    cbn [fold_left count_wait];
    try match goal with
        | H : wait_step st = None |- _ => rewrite H in *
        | H : wait_step st = Some _ |- _ => rewrite H in *
        end;
    cbn [option_map];
    (split; [reflexivity || (f_equal; lia)|]);
    try exact Hw; intros w' E; inversion E; subst;
    try lia;
    match goal with
    | H : forall w, Some ?v = Some w -> 0 <= w |- _ =>
        specialize (H v eq_refl); lia
    end.
Qed.

(** X7: [wait_step] counts the evaluations scored since the last
    checkpoint was saved: it is unbound before the first checkpoint,
    zero right after one, and one more after each evaluation that saved
    nothing; it is never negative. *)
Theorem train_wait_counter :
  let r := train args model train_data dev_data h0 in
  wait_step (final r) = evaluations_since_save (trace (final r)) /\
  forall w, wait_step (final r) = Some w -> 0 <= w.
Proof.
  cbv zeta.
  apply (train_invariant
           (fun st => wait_step st = evaluations_since_save (trace st) /\
                      forall w, wait_step st = Some w -> 0 <= w)).
  { split; [reflexivity|discriminate]. }
  intros epoch b st _ IH.
  exact (iteration_wait_count (iteration_ok epoch b st) IH).
Qed.

Lemma model_mode_app tr g evs :
  model_mode (tr ++ map (pair g) evs)
  = fold_left switch_mode evs (model_mode tr).
Proof.
  unfold model_mode.
  rewrite map_app, map_snd_pair, fold_left_app. reflexivity.
Qed.

Lemma switch_mode_update_calls g acc :
  fold_left switch_mode (update_calls args g) acc = acc.
Proof.
  apply fold_left_neutral. unfold update_calls.
  destruct (is_multiple _ _); repeat constructor.
Qed.

Lemma switch_mode_evaluation_calls m outs tl epoch g acc :
  fold_left switch_mode (evaluation_calls dev_data m outs tl epoch g) acc
  = Some Evaluating.
Proof.
  unfold evaluation_calls. rewrite !fold_left_app.
  cbn [fold_left].
  rewrite (@fold_left_neutral _ _ switch_mode (generation_calls _ _ _ _)).
  - reflexivity.
  - apply generation_calls_forall; reflexivity.
Qed.

(** The mode an iteration leaves the model in, when it found it in
    training mode: evaluation mode exactly when it left the loop from
    inside an evaluation. *)
Lemma iteration_mode epoch b st o :
  iteration epoch b st o ->
  model_mode (trace st) = Some Training ->
  model_mode (trace (state_of o))
  = Some (match o with
          | Normal _ => Training
          | Broke _ =>
              if existsb (fun e => match e with
                                   | EModelEval => true
                                   | _ => false
                                   end) (emitted st o)
              then Evaluating else Training
          | Raised ZeroDivisionError _ => Training
          | Raised _ _ => Evaluating
          end).
Proof.
  intros Hit IH.
  rewrite (iteration_emitted Hit), model_mode_app, IH.
  iteration_cases Hit;
    unfold forward_calls, checkpoint_calls;
    rewrite ?fold_left_app; cbn [fold_left switch_mode];
    rewrite ?switch_mode_update_calls, ?switch_mode_evaluation_calls;
    cbn [fold_left switch_mode]; try reflexivity.
  unfold evaluation_calls. rewrite !existsb_app. cbn.
  rewrite !orb_true_r. reflexivity.
Qed.

Lemma visited_mode st : visited st -> model_mode (trace st) = Some Training.
Proof.
  revert st.
  apply (visited_invariant
           (fun st => model_mode (trace st) = Some Training)).
  - reflexivity.
  - intros epoch b st st' _ IH Hb.
    pose proof (iteration_ok epoch b st) as Hit. rewrite Hb in Hit.
    exact (iteration_mode Hit IH).
Qed.

Lemma visited_later_stamp st g (e : event) :
  visited st -> In (g, e) (trace st) -> g <= global_step st.
Proof.
  intros Hv Hin. destruct (visited_facts Hv) as (_ & _ & Hst).
  pose proof (proj1 (Forall_forall _ _) Hst _ Hin) as H. cbn in H. lia.
Qed.

(** X8: [train] ends with the model in training mode, except when it
    leaves the loop from inside an evaluation, where [model.train()] is
    skipped: when it stops because the counter reached
    [args.wait_step], and when the evaluation raised for a missing
    [module] attribute or for the unbound [wait_step].  Then the model
    is left in evaluation mode. *)
Theorem train_model_mode :
  let r := train args model train_data dev_data h0 in
  (model_mode (trace (final r)) = Some Training \/
   model_mode (trace (final r)) = Some Evaluating) /\
  (model_mode (trace (final r)) = Some Evaluating <->
   (exists st preds,
       r = Returned st /\ stop_training st = true /\
       In (global_step st, EEvaluate preds) (trace st)) \/
   (exists st, r = Failed (AttributeError "module") st) \/
   (exists st, r = Failed (UnboundLocalError "wait_step") st)).
Proof.
  cbv zeta.
  destruct train_ends as [(st & Hr & Hv)|(epoch & b & st0 & Hv & He & Hn)].
  { rewrite Hr. cbn [final]. rewrite (visited_mode Hv).
    split; [left; reflexivity|]. split; [discriminate|].
    destruct (visited_facts Hv) as (Hs & _).
    intros [(st' & preds & E & Hs' & _)|[(st' & E)|(st' & E)]];
      try discriminate E.
    inversion E; subst. congruence. }
  pose proof (iteration_ok epoch b st0) as Hit.
  pose proof (iteration_mode Hit (visited_mode Hv)) as Hm.
  set (r := train args model train_data dev_data h0) in *. clearbody r.
  set (o := body epoch b st0) in *. clearbody o.
  assert (Hf : final r = state_of o).
  { destruct r, o; cbn in He; cbn; intuition congruence. }
  rewrite Hf, Hm. clear Hf Hm.
  iteration_cases Hit; try (exfalso; eapply Hn; reflexivity);
    first [apply ends_as_broke in He | apply ends_as_raised in He];
    subst r;
    unfold forward_calls, evaluation_calls; rewrite ?existsb_app;
    cbn [existsb orb]; rewrite ?orb_true_r;
    (split; [first [left; reflexivity | right; reflexivity]|]);
    (split;
     [ try discriminate; intros _
     | try reflexivity;
       intros [(st' & preds & E & Hs' & Hin)|[(st' & E)|(st' & E)]];
       try discriminate E ]).
  - inversion E; subst st'. clear E.
    apply (@in_iteration_trace _ _ _ _ _ _ Hit) in Hin.
    cbn [global_step] in Hin. destruct Hin as [Hin|(_ & Hin)].
    + pose proof (@visited_later_stamp _ _ _ Hv Hin). lia.
    + emitted_calls. in_calls Hin.
  - right. left. eexists. reflexivity.
  - right. right. eexists. reflexivity.
  - left. eexists _, _. split; [reflexivity|]. split; [reflexivity|].
    cbn [global_step trace]. apply in_or_app. right.
    apply in_map. unfold evaluation_calls. find_call.
Qed.

(** *** Not-a-number values *)

Lemma SFeqb_refl x : x <> S754_nan -> SFeqb x x = true.
Proof.
  destruct x as [s|s| |s m e]; intros Hx; try congruence;
    unfold SFeqb, SFcompare; try (destruct s; reflexivity).
  destruct s; rewrite Z.compare_refl, Pos.compare_cont_refl; reflexivity.
Qed.

(** A strict comparison that holds has no not-a-number side. *)
Lemma float_ltb_not_nan (a b : float) :
  (a <? b)%float = true -> is_nan a = false /\ is_nan b = false.
Proof.
  intros H. rewrite ltb_spec in H. unfold is_nan. rewrite !eqb_spec.
  split; rewrite SFeqb_refl; try reflexivity; intros E; rewrite E in H.
  - discriminate H.
  - destruct (Prim2SF a); discriminate H.
Qed.

Lemma iteration_nan_free epoch b st o :
  iteration epoch b st o ->
  is_nan (best_accuracy st) = false /\
  Forall (fun l => is_nan l = false) (train_losses st) ->
  is_nan (best_accuracy (state_of o)) = false /\
  Forall (fun l => is_nan l = false) (train_losses (state_of o)).
Proof.
  intros Hit (Hb & Hl).
  inversion Hit; subst;
    repeat match goal with x := _ |- _ => subst x end;
    cbn [state_of best_accuracy train_losses];
    (split;
     [ first [exact Hb | eapply float_ltb_not_nan; eassumption]
     | first [ exact Hl | constructor
             | apply Forall_app; split; [exact Hl|];
               constructor; [assumption|constructor] ] ]).
Qed.

(** X9: not-a-number values are kept out of the state of [train]: the
    best score is never one, the loss buffer never holds one, and an
    evaluation whose score is not-a-number saves no checkpoint. *)
Theorem train_keeps_nan_out :
  let r := train args model train_data dev_data h0 in
  is_nan (best_accuracy (final r)) = false /\
  Forall (fun l => is_nan l = false) (train_losses (final r)) /\
  forall g preds,
    In (g, EEvaluate preds) (trace (final r)) ->
    is_nan (score_of preds) = true ->
    forall obj path, ~ In (g, ETorchSave obj path) (trace (final r)).
Proof.
  cbv zeta.
  assert (H : is_nan (best_accuracy
                        (final (train args model train_data dev_data h0)))
              = false /\
              Forall (fun l => is_nan l = false)
                     (train_losses
                        (final (train args model train_data dev_data h0)))).
  { apply (train_invariant
             (fun st => is_nan (best_accuracy st) = false /\
                        Forall (fun l => is_nan l = false)
                               (train_losses st))).
    - split; [reflexivity|constructor].
    - intros epoch b st _ IH.
      exact (iteration_nan_free (iteration_ok epoch b st) IH). }
  destruct H as (H1 & H2). split; [exact H1|]. split; [exact H2|].
  intros g preds Hin Hnan obj path Hsave.
  destruct (in_trace_stamp _ _ Hin) as [(_ & [E|E])|Hg]; try discriminate.
  destruct (train_steps Hg) as (epoch & b & st0 & Hs).
  apply in_calls_at in Hin. apply in_calls_at in Hsave.
  step_cases Hs; rewrite Hcalls in Hin, Hsave;
    try (in_calls Hsave; fail).
  in_calls Hin.
  match goal with
  | E : EEvaluate _ = EEvaluate _ |- _ => inversion E; subst; clear E
  end.
  match goal with
  | H : (_ <? _)%float = true |- _ =>
      apply float_ltb_not_nan in H; destruct H as (_ & H)
  end.
  congruence.
Qed.

(** *** How [train] fails *)

Lemma visited_wait st :
  visited st -> (wait_step st = None <-> never_saved (trace st)).
Proof.
  revert st.
  apply (visited_invariant
           (fun st => wait_step st = None <-> never_saved (trace st))).
  - split; [|reflexivity]. intros _ g obj path Hin.
    cbn in Hin. intuition discriminate.
  - intros epoch b st st' _ IH Hb.
    pose proof (iteration_ok epoch b st) as Hit. rewrite Hb in Hit.
    exact (iteration_wait Hit IH).
Qed.

(** The exceptions of [exn] are those the statements of [train] raise
    by themselves; what a called library may raise is not part of it.
    Each comes with its cause. *)
Lemma train_failed_cases e st :
  train args model train_data dev_data h0 = Failed e st ->
  (e = ZeroDivisionError /\
   (Args.gradient_accumulation_steps args = 0 \/
    Args.eval_period args = 0) /\
   global_step st = 1) \/
  (e = AttributeError "module" /\
   eval_model args model = None /\
   is_multiple (global_step st) (Args.eval_period args) = true) \/
  (e = UnboundLocalError "wait_step" /\
   is_multiple (global_step st) (Args.eval_period args) = true /\
   never_saved (trace st) /\
   exists preds,
     In (global_step st, EEvaluate preds) (trace st) /\
     (best_accuracy st <? score_of preds)%float = false).
Proof.
  intros Hr.
  destruct train_ends as [(st' & Hr' & _)|(epoch & b & st0 & Hv & He & _)];
    [congruence|].
  rewrite Hr in He.
  pose proof (iteration_ok epoch b st0) as Hit.
  pose proof (iteration_wait Hit (visited_wait Hv)) as Hw.
  set (o := body epoch b st0) in *. clearbody o. clear Hr.
  iteration_cases Hit; cbn [ends_as] in He; try tauto;
    destruct He as (-> & ->); cbn [state_of wait_step] in Hw.
  - left. split; [reflexivity|]. split; [left; assumption|].
    rewrite (zero_modulus_visited (or_introl H0) Hv). reflexivity.
  - left. split; [reflexivity|]. split; [right; assumption|].
    rewrite (zero_modulus_visited (or_intror H1) Hv). reflexivity.
  - right. left. repeat split; assumption.
  - right. right. split; [reflexivity|]. split; [assumption|].
    split; [apply Hw; reflexivity|].
    exists (map decode_batch outs). split; [|assumption].
    cbn [global_step trace]. apply in_or_app. right.
    apply in_map. unfold evaluation_calls. find_call.
Qed.

(** X10: what stands behind each exception that a statement of [train]
    itself raises (exceptions raised inside the libraries it calls are
    not modelled, and not spoken of).  The [ZeroDivisionError] of the
    remainders at lines 72 and 78 comes at step 1 and with
    [args.gradient_accumulation_steps] or [args.eval_period] zero, never
    later; the [AttributeError] of [model.module] comes at a step that
    is a multiple of [args.eval_period], with [args.n_gpu] not 1 and a
    model without that attribute; the [UnboundLocalError] of
    [wait_step] comes at an evaluation that scored not above the best
    score, in a run that never saved a checkpoint. *)
Theorem train_failure_causes :
  let r := train args model train_data dev_data h0 in
  (forall st,
      r = Failed ZeroDivisionError st ->
      (Args.gradient_accumulation_steps args = 0 \/
       Args.eval_period args = 0) /\
      global_step st = 1) /\
  (forall st,
      r = Failed (AttributeError "module") st ->
      Args.n_gpu args <> 1 /\ module model = None /\
      is_multiple (global_step st) (Args.eval_period args) = true) /\
  (forall st,
      r = Failed (UnboundLocalError "wait_step") st ->
      is_multiple (global_step st) (Args.eval_period args) = true /\
      never_saved (trace st) /\
      exists preds,
        In (global_step st, EEvaluate preds) (trace st) /\
        (best_accuracy st <? score_of preds)%float = false).
Proof.
  cbv zeta. split; [|split]; intros st Hr;
    destruct (train_failed_cases Hr) as [(E & H)|[(E & H)|(E & H)]];
    try discriminate E; try exact H.
  destruct H as (Hm & Hmul). unfold eval_model in Hm.
  destruct (Z.eqb_spec (Args.n_gpu args) 1); [discriminate|auto].
Qed.

Lemma train_never_starts_prediction g msg :
  In (g, ELoggerInfo msg)
     (trace (final (train args model train_data dev_data h0))) ->
  match msg with
  | LogLoadingCheckpoint _ | LogResult _ _ _ => False
  | _ => True
  end.
Proof.
  intros Hin. destruct msg; try exact I.
  all: destruct (in_trace_stamp _ _ Hin) as [(_ & [E|E])|Hg];
    try discriminate;
    destruct (train_steps Hg) as (epoch & b & st0 & Hs);
    apply in_calls_at in Hin;
    step_cases Hs; rewrite Hcalls in Hin; in_calls Hin.
Qed.

(** *** Which batch, which epoch *)

Lemma iteration_made_in epoch b st o :
  iteration epoch b st o ->
  Forall (made_in epoch (global_step st + 1) b) (emitted st o).
Proof.
  intros Hit. iteration_cases Hit; apply Forall_forall; intros e Hin;
    in_calls Hin; subst; cbn; auto.
Qed.

Lemma for_batches_positions epoch bs : forall st g (e : event),
  In (g, e)
     (trace (state_of (for_batches args model dev_data h0 epoch bs st))) ->
  In (g, e) (trace st) \/
  exists k b,
    nth_error bs k = Some b /\ g = global_step st + 1 + Z.of_nat k /\
    made_in epoch g b e.
Proof.
  induction bs as [|a bs IH]; intros st g e Hin; cbn [for_batches] in Hin.
  { left. exact Hin. }
  pose proof (iteration_ok epoch a st) as Hit.
  assert (Hone : In (g, e) (trace (state_of (body epoch a st))) ->
                 In (g, e) (trace st) \/
                 exists k b,
                   nth_error (a :: bs) k = Some b /\
                   g = global_step st + 1 + Z.of_nat k /\
                   made_in epoch g b e).
  { intros H. apply (@in_iteration_trace _ _ _ _ _ _ Hit) in H.
    destruct H as [H|(-> & H)]; [left; exact H|right].
    exists 0%nat, a. split; [reflexivity|]. split; [cbn; lia|].
    exact (proj1 (Forall_forall _ _) (iteration_made_in Hit) _ H). }
  destruct (iteration_stamps Hit) as (Hg & _).
  destruct (body epoch a st) as [st'|st'|x st'] eqn:Hb;
    cbn [state_of] in *; try (apply Hone; exact Hin).
  destruct (IH st' g e Hin) as [H|(k & b & Hk & -> & Hm)];
    [apply Hone; exact H|].
  right. exists (S k), b. split; [exact Hk|].
  rewrite Hg in *. rewrite Nat2Z.inj_succ.
  replace (global_step st + 1 + Z.succ (Z.of_nat k))
    with (global_step st + 1 + 1 + Z.of_nat k) by lia.
  auto.
Qed.

Lemma for_epochs_positions epochs : forall st g (e : event),
  In (g, e)
     (trace (state_of (for_epochs args model train_data dev_data h0
                                  epochs st))) ->
  In (g, e) (trace st) \/
  exists i epoch k b,
    nth_error epochs i = Some epoch /\
    nth_error (dataloader train_data) k = Some b /\
    g = global_step st
        + Z.of_nat i * Z.of_nat (List.length (dataloader train_data))
        + Z.of_nat k + 1 /\
    made_in epoch g b e.
Proof.
  induction epochs as [|epoch epochs IH]; intros st g e Hin;
    cbn [for_epochs] in Hin.
  { left. exact Hin. }
  pose proof (for_batches_positions epoch (dataloader train_data) st g e)
    as Hfirst.
  pose proof (for_batches_steps epoch (dataloader train_data) st) as Hsteps.
  cbv zeta in Hsteps. destruct Hsteps as (_ & _ & Hsteps).
  assert (Hone : In (g, e)
                    (trace (state_of (for_batches args model dev_data h0
                                        epoch (dataloader train_data) st))) ->
                 In (g, e) (trace st) \/
                 exists i epoch0 k b,
                   nth_error (epoch :: epochs) i = Some epoch0 /\
                   nth_error (dataloader train_data) k = Some b /\
                   g = global_step st
                       + Z.of_nat i
                         * Z.of_nat (List.length (dataloader train_data))
                       + Z.of_nat k + 1 /\
                   made_in epoch0 g b e).
  { intros H. destruct (Hfirst H) as [H'|(k & b & Hk & Hg & Hm)];
      [left; exact H'|right].
    exists 0%nat, epoch, k, b. repeat split; auto. cbn. lia. }
  clear Hfirst.
  destruct (for_batches _ _ _ _ _ _ _) as [st'|st'|x st'];
    cbn [state_of] in *.
  - destruct (stop_training st'); cbn [state_of] in Hin;
      [apply Hone; exact Hin|].
    destruct (IH st' g e Hin) as [H|(i & ep & k & b & Hi & Hk & Hg & Hm)];
      [apply Hone; exact H|].
    right. exists (S i), ep, k, b. repeat split; auto.
    rewrite Hg, Hsteps, Nat2Z.inj_succ. lia.
  - rewrite Hsteps in Hin. apply Hone. exact Hin.
  - apply Hone. exact Hin.
Qed.

Lemma py_range_nth n i x :
  nth_error (py_range n) i = Some x -> x = Z.of_nat i /\ x < n.
Proof.
  unfold py_range. intros H.
  assert (Hi : (i < Z.to_nat n)%nat).
  { assert (Hs : nth_error (map Z.of_nat (seq 0 (Z.to_nat n))) i <> None)
      by congruence.
    apply nth_error_Some in Hs. rewrite length_map, length_seq in Hs.
    exact Hs. }
  rewrite nth_error_map, (nth_error_nth' _ 0%nat) in H
    by (rewrite length_seq; exact Hi).
  rewrite seq_nth in H by exact Hi. cbn in H.
  injection H as <-. lia.
Qed.

(** Where a call of a run was made: at a step [g >= 1], in the
    iteration on batch number [(g-1) mod n] of epoch [(g-1) / n], with
    [n] the number of training batches. *)
Lemma train_position g (e : event) :
  In (g, e) (trace (final (train args model train_data dev_data h0))) ->
  1 <= g ->
  let n := Z.of_nat (List.length (dataloader train_data)) in
  exists b,
    nth_error (dataloader train_data) (Z.to_nat ((g - 1) mod n)) = Some b /\
    made_in ((g - 1) / n) g b e /\
    0 <= (g - 1) / n < Args.num_train_epochs args.
Proof.
  intros Hin Hg n.
  assert (H : In (g, e)
                 (trace (state_of
                           (for_epochs args model train_data dev_data h0
                              (py_range (Args.num_train_epochs args))
                              initial_state)))).
  { revert Hin. unfold train.
    destruct (for_epochs _ _ _ _ _ _ _); exact (fun H => H). }
  apply for_epochs_positions in H.
  destruct H as [H|(i & ep & k & b & Hi & Hk & Hpos & Hm)].
  { cbn in H. destruct H as [H|[H|[]]]; inversion H; lia. }
  apply py_range_nth in Hi. destruct Hi as (-> & Hi).
  assert (Hkn : Z.of_nat k < n).
  { unfold n. apply Nat2Z.inj_lt. apply nth_error_Some. congruence. }
  cbn [initial_state global_step] in Hpos. fold n in Hpos.
  assert (Hdiv : (g - 1) / n = Z.of_nat i).
  { symmetry. apply Z.div_unique with (r := Z.of_nat k); lia. }
  assert (Hmod : (g - 1) mod n = Z.of_nat k).
  { symmetry. apply Z.mod_unique with (q := Z.of_nat i); lia. }
  exists b. rewrite Hmod, Hdiv, Nat2Z.id. repeat split; auto; lia.
Qed.

(** X12: the loops take the training batches in order, epoch after
    epoch: with [n] batches in the dataloader, the forward pass of
    step [g] is in training mode and on batch number [(g-1) mod n],
    and the log lines of an evaluation and of a checkpoint at step [g]
    name that step and the epoch [(g-1) / n], an epoch of
    [range(args.num_train_epochs)]. *)
Theorem train_step_position :
  let tr := trace (final (train args model train_data dev_data h0)) in
  let n := Z.of_nat (List.length (dataloader train_data)) in
  (forall g b t loss,
      In (g, EForward b t loss) tr ->
      t = true /\
      nth_error (dataloader train_data) (Z.to_nat ((g - 1) mod n))
      = Some b) /\
  (forall g g' tl m s epoch,
      In (g, ELoggerInfo (LogStep g' tl m s epoch)) tr ->
      g' = g /\ epoch = (g - 1) / n /\
      0 <= epoch < Args.num_train_epochs args) /\
  (forall g m old new epoch g',
      In (g, ELoggerInfo (LogSavingModel m old new epoch g')) tr ->
      g' = g /\ epoch = (g - 1) / n /\
      0 <= epoch < Args.num_train_epochs args).
Proof.
  cbv zeta.
  assert (Hpos : forall g (e : event),
             In (g, e)
                (trace (final (train args model train_data dev_data h0))) ->
             e <> EModelTrain -> e <> ELoggerInfo LogStartingTraining ->
             1 <= g).
  { intros g e Hin H1 H2.
    destruct (in_trace_stamp _ _ Hin) as [(_ & [E|E])|Hg];
      [congruence|congruence|lia]. }
  split; [|split].
  - intros g b t loss Hin.
    destruct (@train_position g _ Hin) as (b' & Hb & Hm & _).
    { eapply Hpos; [exact Hin|discriminate|discriminate]. }
    cbn in Hm. destruct Hm as (-> & ->). auto.
  - intros g g' tl m s epoch Hin.
    destruct (@train_position g _ Hin) as (b' & _ & Hm & Hep).
    { eapply Hpos; [exact Hin|discriminate|discriminate]. }
    cbn in Hm. destruct Hm as (-> & ->). auto.
  - intros g m old new epoch g' Hin.
    destruct (@train_position g _ Hin) as (b' & _ & Hm & Hep).
    { eapply Hpos; [exact Hin|discriminate|discriminate]. }
    cbn in Hm. destruct Hm as (-> & ->). auto.
Qed.

End RunFacts.




(** ** [run] *)

Lemma prefix_spec p : forall s,
  String.prefix p s = true <-> exists c, s = (p ++ c)%string.
Proof.
  induction p as [|a p IH]; intros s.
  - split; [intros _; exists s; reflexivity|intros _; destruct s; reflexivity].
  - destruct s as [|a' s]; cbn;
      [split; [discriminate|intros (c & E); discriminate]|].
    destruct (Ascii.ascii_dec a a') as [->|Hne].
    + rewrite IH. split; intros (c & E); exists c; congruence.
    + split; [discriminate|]. intros (c & E). congruence.
Qed.

Lemma str_in_eq sub s :
  str_in sub s =
  if String.prefix sub s then true
  else match s with
       | EmptyString => false
       | String _ s' => str_in sub s'
       end.
Proof. destruct s; reflexivity. Qed.

Lemma str_in_spec sub : forall s,
  str_in sub s = true <-> exists a c, s = (a ++ sub ++ c)%string.
Proof.
  induction s as [|x s IH]; rewrite str_in_eq;
    destruct (String.prefix sub _) eqn:Hp.
  - split; [intros _|reflexivity]. apply prefix_spec in Hp.
    destruct Hp as (c & E). exists ""%string, c. exact E.
  - split; [discriminate|]. intros ([|y a] & c & E); [|discriminate].
    assert (String.prefix sub "" = true)
      by (apply prefix_spec; exists c; exact E).
    congruence.
  - split; [intros _|reflexivity]. apply prefix_spec in Hp.
    destruct Hp as (c & E). exists ""%string, c. exact E.
  - rewrite IH. split.
    + intros (a & c & ->). exists (String x a), c. reflexivity.
    + intros ([|y a] & c & E).
      * assert (String.prefix sub (String x s) = true)
          by (apply prefix_spec; exists c; exact E).
        congruence.
      * injection E as -> ->. eauto.
Qed.

Lemma filter_partition {A} (f : A -> bool) l :
  Permutation l (filter (fun x => negb (f x)) l ++ filter f l).
Proof.
  induction l as [|x l IH]; cbn; [constructor|].
  destruct (f x); cbn.
  - apply Permutation_cons_app. exact IH.
  - constructor. exact IH.
Qed.

(** C9: [AdamW] is given two groups: the parameters whose name
    contains neither ['bias'] nor ['LayerNorm.weight'], with
    [args.weight_decay], and those whose name contains one of them,
    with weight decay zero.  Together they hold every named parameter
    once; a parameter sits in the group its name selects, and when
    the parameters are all distinct no parameter sits in both. *)
Theorem optimizer_groups_partition (args : Args.t) (model : Model) :
  exists decay no_dec,
    optimizer_grouped_parameters args model = [decay; no_dec] /\
    group_weight_decay decay = Args.weight_decay args /\
    group_weight_decay no_dec = 0%float /\
    Permutation (map snd (named_parameters model))
                (params decay ++ params no_dec) /\
    (forall n,
        any_no_decay n = true <->
        (exists a c, n = (a ++ "bias" ++ c)%string) \/
        (exists a c, n = (a ++ "LayerNorm.weight" ++ c)%string)) /\
    (forall p,
        In p (params no_dec) <->
        exists n, In (n, p) (named_parameters model)
                  /\ any_no_decay n = true) /\
    (forall p,
        In p (params decay) <->
        exists n, In (n, p) (named_parameters model)
                  /\ any_no_decay n = false) /\
    (NoDup (map snd (named_parameters model)) ->
     forall p, ~ (In p (params decay) /\ In p (params no_dec))).
Proof.
  unfold optimizer_grouped_parameters. do 2 eexists.
  split; [reflexivity|]. cbn [group_weight_decay params].
  split; [reflexivity|]. split; [reflexivity|].
  split.
  { rewrite <- map_app. apply Permutation_map.
    apply (filter_partition (fun np => any_no_decay (fst np))). }
  split.
  { intros n. unfold any_no_decay, no_decay. cbn [existsb].
    rewrite !orb_true_iff, !str_in_spec. intuition discriminate. }
  assert (Hin : forall (f : string -> bool) p,
             In p (map snd (filter (fun np => f (fst np))
                                   (named_parameters model))) <->
             exists n, In (n, p) (named_parameters model) /\ f n = true).
  { intros f p. rewrite in_map_iff. split.
    - intros ([n p'] & <- & H). apply filter_In in H. cbn in *. eauto.
    - intros (n & H & Hf). exists (n, p). split; [reflexivity|].
      apply filter_In. auto. }
  split; [exact (Hin any_no_decay)|]. split.
  { intros p. rewrite (Hin (fun n => negb (any_no_decay n))).
    split; intros (n & H & Hf); exists n; split; auto;
      destruct (any_no_decay n); cbn in *; congruence. }
  intros Hnd p (H1 & H2).
  pose proof (filter_partition (fun np => any_no_decay (fst np))
                               (named_parameters model)) as Hp.
  apply (Permutation_map snd) in Hp. rewrite map_app in Hp.
  apply (Permutation_NoDup Hp) in Hnd.
  apply NoDup_app_remove_l in Hnd as Hnd'.
  revert p H1 H2. clear - Hnd.
  induction (map snd (filter _ (named_parameters model))) as [|q l IH];
    cbn in *; intros p H1 H2; [tauto|].
  inversion Hnd as [|? ? Hq Hl]; subst.
  destruct H1 as [->|H1]; [|eauto].
  apply Hq, in_or_app. right. exact H2.
Qed.

Lemma inference_never_loads m dev save h path :
  ~ In (ELoadStateDict path) (fst (inference m dev save h)).
Proof.
  destruct (inference_spec m dev save h) as (outs & _ & ->). cbn [fst].
  rewrite !in_app_iff. intros [Hin|[Hin|Hin]].
  - apply generation_calls_in in Hin.
    destruct Hin as (? & ? & [E|[E|E]]); discriminate.
  - destruct save; cbn in Hin; intuition discriminate.
  - cbn in Hin. intuition discriminate.
Qed.

(** C5: [run] never loads a state dict.  With [do_predict] set, once
    training (if any) has returned, it computes the checkpoint path
    [os.path.join(args.output_dir, "best-model.pt")], logs it, puts
    the model in evaluation mode and runs [inference] on the very
    model object that [from_pretrained] returned (and [train] may have
    updated), then logs the score; nothing else is called in between. *)
Theorem run_predict_loads_nothing (args : Args.t) :
  (forall path, ~ In (ELoadStateDict path) (calls (run args))) /\
  (Args.do_train args = false -> exists h, run args = RunReturned h) /\
  (Args.do_predict args = true ->
   forall h, run args = RunReturned h ->
   exists pre,
     let model := from_pretrained "t5-large" in
     let dev_data := new_QAData args (Args.predict_file args) in
     let before :=
       pre ++ [ELoggerInfo
                 (LogLoadingCheckpoint
                    (os_path_join (Args.output_dir args) "best-model.pt"));
               EModelEval] in
     let res := inference model dev_data true before in
     h = before ++ fst res
           ++ [ELoggerInfo (LogResult (metric dev_data) (data_type dev_data)
                                      (np_mean [snd res] * 100)%float)] /\
     (Args.do_train args = false -> pre = setup_calls args) /\
     (Args.do_train args = true ->
      exists st,
        train args model (new_QAData args (Args.train_file args)) dev_data
              (setup_calls args
                 ++ [ENewAdamW (optimizer_grouped_parameters args model)
                               (Args.learning_rate args)
                               (Args.adam_epsilon args);
                     ENewLinearSchedule (Args.warmup_steps args) 100000])
        = Returned st /\
        pre = setup_calls args
                ++ [ENewAdamW (optimizer_grouped_parameters args model)
                              (Args.learning_rate args)
                              (Args.adam_epsilon args);
                    ENewLinearSchedule (Args.warmup_steps args) 100000]
                ++ map snd (trace st))).
Proof.
  assert (Htrain : forall m td dd h path st,
             final (train args m td dd h) = st ->
             ~ In (ELoadStateDict path) (map snd (trace st))).
  { intros m td dd h path st <- Hin. apply in_map_iff in Hin.
    destruct Hin as ([g e] & E & Hin). cbn in E. subst e.
    exact (train_never_loads _ _ _ _ _ _ _ Hin). }
  assert (Hsetup : forall path (l : list event),
             In (ELoadStateDict path) (setup_calls args ++ l) ->
             In (ELoadStateDict path) l).
  { intros path l Hin. apply in_app_or in Hin. destruct Hin as [Hin|Hin];
      [cbn in Hin; intuition discriminate|exact Hin]. }
  unfold run.
  change ([ETokenizerFromPretrained "t5-large";
           ENewQAData (Args.train_file args);
           ENewQAData (Args.predict_file args)]
            ++ [ELoadDataset (Args.train_file args);
                ELoadDataloader (Args.train_file args);
                ELoadDataset (Args.predict_file args);
                ELoadDataloader (Args.predict_file args)])
    with (firstn 7 (setup_calls args)).
  change (firstn 7 (setup_calls args)
            ++ [EModelFromPretrained "t5-large"; EModelTo torch_device])
    with (setup_calls args).
  set (model := from_pretrained "t5-large").
  set (dev_data := new_QAData args (Args.predict_file args)).
  set (train_data := new_QAData args (Args.train_file args)).
  cbv zeta.
  destruct (Args.do_train args) eqn:Hdo.
  - set (hopt := setup_calls args ++ [ENewAdamW _ _ _; ENewLinearSchedule _ _]).
    destruct (train args model train_data dev_data hopt) as [st|e st] eqn:Htr.
    + assert (Hst : forall path,
                 ~ In (ELoadStateDict path) (map snd (trace st))).
      { intros path. eapply Htrain. rewrite Htr. reflexivity. }
      assert (Hopt : forall path l,
                 In (ELoadStateDict path) (hopt ++ l) ->
                 In (ELoadStateDict path) l).
      { intros path l Hin. subst hopt. rewrite <- app_assoc in Hin.
        apply Hsetup in Hin. cbn in Hin. intuition discriminate. }
      destruct (Args.do_predict args) eqn:Hpred.
      * destruct (inference model dev_data true _) as [evs ems] eqn:Hinf.
        split; [|split; [discriminate|]].
        -- intros path Hin. cbn [calls] in Hin.
           rewrite <- !app_assoc in Hin. apply Hopt in Hin.
           repeat (apply in_app_or in Hin; destruct Hin as [Hin|Hin]);
             try (cbn in Hin; intuition discriminate).
           ++ exact (Hst _ Hin).
           ++ match type of Hinf with
              | inference _ _ _ ?hh = _ =>
                  apply (@inference_never_loads model dev_data true hh path)
              end.
              rewrite Hinf. exact Hin.
        -- intros _ h E. injection E as <-.
           exists (hopt ++ map snd (trace st)).
           rewrite Hinf. cbn [fst snd]. split.
           ++ rewrite <- !app_assoc. reflexivity.
           ++ split; [discriminate|]. intros _. exists st.
              split; [reflexivity|]. subst hopt. rewrite <- !app_assoc.
              reflexivity.
      * split; [|split; discriminate].
        intros path Hin. cbn [calls] in Hin. apply Hopt in Hin.
        exact (Hst _ Hin).
    + split; [|split; discriminate].
      intros path Hin. cbn [calls] in Hin. subst hopt.
      rewrite <- app_assoc in Hin. apply Hsetup in Hin.
      apply in_app_or in Hin. destruct Hin as [Hin|Hin];
        [cbn in Hin; intuition discriminate|].
      revert Hin. eapply Htrain. rewrite Htr. reflexivity.
  - destruct (Args.do_predict args) eqn:Hpred.
    + destruct (inference model dev_data true _) as [evs ems] eqn:Hinf.
      split; [|split; [eauto|]].
      * intros path Hin. cbn [calls] in Hin.
        rewrite <- !app_assoc in Hin. apply Hsetup in Hin.
        repeat (apply in_app_or in Hin; destruct Hin as [Hin|Hin]);
          try (cbn in Hin; intuition discriminate).
        match type of Hinf with
        | inference _ _ _ ?hh = _ =>
            apply (@inference_never_loads model dev_data true hh path)
        end.
        rewrite Hinf. exact Hin.
      * intros _ h E. injection E as <-.
        exists (setup_calls args).
        rewrite Hinf. cbn [fst snd]. split.
        -- rewrite <- !app_assoc. reflexivity.
        -- split; [reflexivity|discriminate].
    + split; [|split; [eauto|discriminate]].
      intros path Hin. cbn [calls] in Hin.
      rewrite <- (app_nil_r (setup_calls args)) in Hin.
      apply Hsetup in Hin. exact Hin.
Qed.

(** X11: [run] does not catch what [train] raises.  When training is
    asked for and [train] raises, [run] ends with that exception, after
    the setup calls, the two calls that build the optimizer and the
    schedule, and the calls of [train]; the lines after the call of
    [train] are not reached, even with [do_predict] set: no checkpoint
    path is logged, no result is logged. *)
Theorem run_training_failure (args : Args.t) e st :
  let model := from_pretrained "t5-large" in
  let before :=
    setup_calls args
      ++ [ENewAdamW (optimizer_grouped_parameters args model)
                    (Args.learning_rate args) (Args.adam_epsilon args);
          ENewLinearSchedule (Args.warmup_steps args) 100000] in
  Args.do_train args = true ->
  train args model (new_QAData args (Args.train_file args))
        (new_QAData args (Args.predict_file args)) before
  = Failed e st ->
  run args = RunFailed e (before ++ map snd (trace st)) /\
  (forall path,
      ~ In (ELoggerInfo (LogLoadingCheckpoint path)) (calls (run args))) /\
  (forall m t s, ~ In (ELoggerInfo (LogResult m t s)) (calls (run args))).
Proof.
  cbv zeta. intros Hdo Htrain.
  pose proof (@train_never_starts_prediction
                args (from_pretrained "t5-large")
                (new_QAData args (Args.train_file args))
                (new_QAData args (Args.predict_file args))
                (setup_calls args
                   ++ [ENewAdamW (optimizer_grouped_parameters
                                    args (from_pretrained "t5-large"))
                                 (Args.learning_rate args)
                                 (Args.adam_epsilon args);
                       ENewLinearSchedule (Args.warmup_steps args) 100000]))
    as Hnever.
  rewrite Htrain in Hnever. cbn [final] in Hnever.
  assert (Hrun : run args
                 = RunFailed e
                     ((setup_calls args
                         ++ [ENewAdamW (optimizer_grouped_parameters
                                          args (from_pretrained "t5-large"))
                                       (Args.learning_rate args)
                                       (Args.adam_epsilon args);
                             ENewLinearSchedule (Args.warmup_steps args)
                                                100000])
                        ++ map snd (trace st))).
  { unfold run.
    change ([ETokenizerFromPretrained "t5-large";
             ENewQAData (Args.train_file args);
             ENewQAData (Args.predict_file args)]
              ++ [ELoadDataset (Args.train_file args);
                  ELoadDataloader (Args.train_file args);
                  ELoadDataset (Args.predict_file args);
                  ELoadDataloader (Args.predict_file args)])
      with (firstn 7 (setup_calls args)).
    change (firstn 7 (setup_calls args)
              ++ [EModelFromPretrained "t5-large"; EModelTo torch_device])
      with (setup_calls args).
    cbv zeta. rewrite Hdo, Htrain. reflexivity. }
  split; [exact Hrun|]. rewrite Hrun. cbn [calls].
  assert (Hin : forall msg,
             In (ELoggerInfo msg)
                ((setup_calls args
                    ++ [ENewAdamW (optimizer_grouped_parameters
                                     args (from_pretrained "t5-large"))
                                  (Args.learning_rate args)
                                  (Args.adam_epsilon args);
                        ENewLinearSchedule (Args.warmup_steps args) 100000])
                   ++ map snd (trace st)) ->
             exists g, In (g, ELoggerInfo msg) (trace st)).
  { intros msg Hin. apply in_app_or in Hin. destruct Hin as [Hin|Hin].
    - cbn in Hin. intuition discriminate.
    - apply in_map_iff in Hin. destruct Hin as ([g e0] & E0 & Hin).
      cbn in E0. subst e0. exists g. exact Hin. }
  split.
  - intros path H. destruct (Hin _ H) as (g & H').
    exact (Hnever g _ H').
  - intros m t s H. destruct (Hin _ H) as (g & H').
    exact (Hnever g _ H').
Qed.

(** X13: [run] always builds and loads both data sets and the model
    first, whatever the flags.  Without [do_train] it then makes no
    call that belongs to training: no optimizer or schedule is built,
    no forward or backward pass is made, nothing is saved; and with
    neither flag it makes no other call at all. *)
Theorem run_without_training (args : Args.t) :
  Args.do_train args = false ->
  exists rest,
    run args = RunReturned (setup_calls args ++ rest) /\
    Forall (fun e => is_training_call e = false)
           (setup_calls args ++ rest) /\
    (Args.do_predict args = false -> rest = []).
Proof.
  intros Hdo. unfold run. rewrite Hdo.
  change ([ETokenizerFromPretrained "t5-large";
           ENewQAData (Args.train_file args);
           ENewQAData (Args.predict_file args)]
            ++ [ELoadDataset (Args.train_file args);
                ELoadDataloader (Args.train_file args);
                ELoadDataset (Args.predict_file args);
                ELoadDataloader (Args.predict_file args)])
    with (firstn 7 (setup_calls args)).
  change (firstn 7 (setup_calls args)
            ++ [EModelFromPretrained "t5-large"; EModelTo torch_device])
    with (setup_calls args).
  cbv zeta.
  assert (Hsetup : Forall (fun e => is_training_call e = false)
                          (setup_calls args)) by repeat constructor.
  destruct (Args.do_predict args).
  2:{ exists []. rewrite app_nil_r. auto. }
  match goal with
  | |- context [inference ?m ?d true ?h] =>
      destruct (inference_spec m d true h) as (outs & _ & ->)
  end.
  eexists. split; [rewrite <- !app_assoc; reflexivity|].
  split; [|discriminate].
  apply Forall_app. split; [exact Hsetup|].
  repeat (apply Forall_app; split);
    try (apply generation_calls_forall; reflexivity);
    repeat constructor.
Qed.

End Facts.

(** ** The theorems at work on small runs *)

Ltac pick := vm_compute; repeat (first [left; reflexivity | right]).

(** [train] in a world of [Demo], on the data sets [run] builds. *)
Abbreviation falling_run :=
  (train (C := Demo.falling_world) Demo.falling_args tt
         (Demo.train_set Demo.falling_world Demo.falling_args)
         (Demo.dev_set Demo.falling_world Demo.falling_args) []).

Abbreviation nan_run :=
  (train (C := Demo.nan_world) Demo.nan_args tt
         (Demo.train_set Demo.nan_world Demo.nan_args)
         (Demo.dev_set Demo.nan_world Demo.nan_args) []).

Abbreviation empty_run :=
  (train (C := Demo.empty_world) Demo.falling_args tt
         (Demo.train_set Demo.empty_world Demo.falling_args)
         (Demo.dev_set Demo.empty_world Demo.falling_args) []).

(** In the falling run the first evaluation scores 0.5, above -1, and
    a checkpoint is written at step 1. *)
Lemma train_checkpoints_best_model_witness :
  let tr := trace (final falling_run) in
  In (1, EEvaluate (D := Demo.data) [0.5%float]) tr /\
  ((exists obj path, In (1, ETorchSave obj path) tr) <->
   (best_so_far (C := Demo.falling_world) (calls_before 1 tr)
    <? score_of (C := Demo.falling_world) [0.5%float])%float = true).
Proof.
  cbv zeta.
  assert (H : In (1, EEvaluate (D := Demo.data) [0.5%float]) (trace (final falling_run)))
    by pick.
  split; [exact H|].
  destruct (train_checkpoints_best_model
              (C := Demo.falling_world) Demo.falling_args tt
              (Demo.train_set Demo.falling_world Demo.falling_args)
              (Demo.dev_set Demo.falling_world Demo.falling_args) [])
    as (_ & _ & Hsave & _).
  exact (Hsave 1 _ H).
Defined.

(** The falling run stops at its third evaluation, with the counter at
    2, which is [args.wait_step] and not above it. *)
Lemma train_early_stopping_counterexample :
  exists st,
    falling_run = Returned st /\ stop_training st = true /\
    In (global_step st, EEvaluate (D := Demo.data) [0.125%float]) (trace st) /\
    wait_step st = Some 2 /\ Args.wait_step Demo.falling_args = 2 /\
    ~ (2 > Args.wait_step Demo.falling_args).
Proof.
  exists (final falling_run).
  split; [vm_compute; reflexivity|]. split; [vm_compute; reflexivity|].
  split; [pick|]. split; [vm_compute; reflexivity|].
  split; [reflexivity|]. cbn. lia.
Qed.

(** The third evaluation of the falling run, scoring 0.125 against a
    best score of 0.5 with the counter at 1. *)
Lemma train_early_stopping_witness :
  In (3, EEvaluate (D := Demo.data) [0.125%float]) (trace (final falling_run)) /\
  exists epoch b st0,
    step_of_run (C := Demo.falling_world) Demo.falling_args tt
                (Demo.dev_set Demo.falling_world Demo.falling_args) []
                falling_run 3 epoch b st0 /\
    let o := train_batch (C := Demo.falling_world) Demo.falling_args tt
                         (Demo.dev_set Demo.falling_world Demo.falling_args)
                         [] epoch b st0 in
    if (best_accuracy st0
        <? score_of (C := Demo.falling_world) [0.125%float])%float then
      wait_step (state_of o) = Some 0 /\ o = Normal (state_of o)
    else
      match wait_step st0 with
      | Some w =>
          wait_step (state_of o) = Some (w + 1) /\
          if w + 1 >=? Args.wait_step Demo.falling_args then
            o = Broke (state_of o) /\ stop_training (state_of o) = true /\
            falling_run = Returned (state_of o)
          else o = Normal (state_of o)
      | None => True
      end.
Proof.
  assert (H : In (3, EEvaluate (D := Demo.data) [0.125%float]) (trace (final falling_run)))
    by pick.
  split; [exact H|].
  exact (train_early_stopping
           (C := Demo.falling_world) Demo.falling_args tt
           (Demo.train_set Demo.falling_world Demo.falling_args)
           (Demo.dev_set Demo.falling_world Demo.falling_args) [] 3 _ H).
Defined.

(** In the run whose second batch yields a not-a-number loss, [train]
    returns after that forward pass and its log line. *)
Lemma train_halts_on_nan_loss_witness :
  let b := Demo.a_batch (-1) in
  In (2, EForward b true nan) (trace (final nan_run)) /\
  is_nan nan = true /\
  exists st epoch st0,
    nan_run = Returned st /\ stop_training st = true /\
    global_step st = 2 /\
    step_of_run (C := Demo.nan_world) Demo.nan_args tt
                (Demo.dev_set Demo.nan_world Demo.nan_args) []
                nan_run 2 epoch b st0 /\
    train_losses st = train_losses st0 /\
    calls_at 2 (trace st) =
      [EBatchTo b (torch_device (C := Demo.nan_world));
       EForward b true nan; ELoggerInfo (LogStopTraining nan)] /\
    trace st
    = calls_before 2 (trace st) ++ map (pair 2) (calls_at 2 (trace st)).
Proof.
  cbv zeta.
  assert (H : In (2, EForward (Demo.a_batch (-1)) true nan)
                 (trace (final nan_run))) by pick.
  split; [exact H|]. split; [reflexivity|].
  exact (train_halts_on_nan_loss
           (C := Demo.nan_world) Demo.nan_args tt
           (Demo.train_set Demo.nan_world Demo.nan_args)
           (Demo.dev_set Demo.nan_world Demo.nan_args) [] 2
           (Demo.a_batch (-1)) true nan H eq_refl).
Defined.

(** In the falling run the optimizer steps at step 2, a multiple of
    the two accumulation steps. *)
Lemma train_gradient_accumulation_witness :
  let tr := trace (final falling_run) in
  In (2, EOptimizerStep (D := Demo.data)) tr /\
  is_update_call (EOptimizerStep (D := Demo.data)) = true /\
  exists b loss rest pre post,
    calls_at 2 tr =
      forward_calls (C := Demo.falling_world) b loss
        ++ EBackward loss
        :: update_calls (D := Demo.data) Demo.falling_args 2 ++ rest /\
    Forall (fun e' => is_update_call e' = false) rest /\
    tr = pre ++ map (pair 2) (calls_at 2 tr) ++ post /\
    (is_multiple 2 (Args.gradient_accumulation_steps Demo.falling_args)
     = true
     <-> (Args.gradient_accumulation_steps Demo.falling_args | 2)).
Proof.
  cbv zeta.
  assert (H : In (2, EOptimizerStep (D := Demo.data))
                 (trace (final falling_run))) by pick.
  split; [exact H|]. split; [reflexivity|].
  exact (train_gradient_accumulation
           (C := Demo.falling_world) Demo.falling_args tt
           (Demo.train_set Demo.falling_world Demo.falling_args)
           (Demo.dev_set Demo.falling_world Demo.falling_args) [] 2
           EOptimizerStep H eq_refl).
Defined.

(** Step 2 of the run whose second batch yields a not-a-number loss is
    a multiple of the two accumulation steps, and yet the optimizer
    makes no step there: the loss is not even back-propagated. *)
Lemma train_gradient_accumulation_counterexample :
  exists st,
    nan_run = Returned st /\ global_step st = 2 /\
    In (2, EForward (Demo.a_batch (-1)) true nan) (trace st) /\
    (Args.gradient_accumulation_steps Demo.nan_args | 2) /\
    ~ In (2, EOptimizerStep (D := Demo.data)) (trace st) /\
    (forall loss, ~ In (2, EBackward (D := Demo.data) loss) (trace st)).
Proof.
  exists (final nan_run).
  split; [vm_compute; reflexivity|]. split; [vm_compute; reflexivity|].
  split; [pick|]. split; [exists 1; reflexivity|].
  split; [|intros loss]; intros Hin; vm_compute in Hin;
    repeat (destruct Hin as [Hin|Hin]; [discriminate Hin|]); exact Hin.
Qed.

Abbreviation nan_period_run :=
  (train (C := Demo.nan_world) Edge.nan_period_args tt
         (Demo.train_set Demo.nan_world Edge.nan_period_args)
         (Demo.dev_set Demo.nan_world Edge.nan_period_args) []).


(** With an empty dev set the first score is not-a-number, which is
    not above -1: [train] fails on [wait_step]. *)
Lemma train_unbound_wait_step_witness :
  In (1, EEvaluate (D := Demo.data) []) (trace (final empty_run)) /\
  never_evaluated (calls_before 1 (trace (final empty_run))) /\
  ((-1) <? score_of (C := Demo.empty_world) [])%float = false /\
  exists st,
    empty_run = Failed (UnboundLocalError "wait_step") st /\
    global_step st = 1 /\ wait_step st = None /\
    best_accuracy st = (-1)%float.
Proof.
  assert (H : In (1, EEvaluate (D := Demo.data) [])
                 (trace (final empty_run))) by pick.
  assert (Hn : never_evaluated
                 (calls_before 1 (trace (final empty_run)))).
  { intros g preds Hin. vm_compute in Hin.
    repeat (destruct Hin as [Hin|Hin]; [discriminate Hin|]). exact Hin. }
  split; [exact H|]. split; [exact Hn|]. split; [reflexivity|].
  destruct (train_unbound_wait_step
              (C := Demo.empty_world) Demo.falling_args tt
              (Demo.train_set Demo.empty_world Demo.falling_args)
              (Demo.dev_set Demo.empty_world Demo.falling_args) [])
    as (_ & Hraise).
  exact (Hraise 1 _ H Hn eq_refl).
Defined.

(** ** The corners of [train] and [run] on small runs *)

Abbreviation zero_accumulation_run :=
  (train (C := Demo.falling_world) Edge.zero_accumulation_args tt
         (Demo.train_set Demo.falling_world Edge.zero_accumulation_args)
         (Demo.dev_set Demo.falling_world Edge.zero_accumulation_args) []).

Abbreviation zero_period_run :=
  (train (C := Demo.falling_world) Edge.zero_period_args tt
         (Demo.train_set Demo.falling_world Edge.zero_period_args)
         (Demo.dev_set Demo.falling_world Edge.zero_period_args) []).

Abbreviation two_gpu_run :=
  (train (C := Demo.falling_world) Edge.two_gpu_args tt
         (Demo.train_set Demo.falling_world Edge.two_gpu_args)
         (Demo.dev_set Demo.falling_world Edge.two_gpu_args) []).

(** Without accumulation steps the first iteration fails after its
    backward pass. *)
Lemma train_zero_accumulation_steps_witness :
  Args.gradient_accumulation_steps Edge.zero_accumulation_args = 0 /\
  In (1, EBackward (D := Demo.data) 0.5%float)
     (trace (final zero_accumulation_run)) /\
  exists st b,
    zero_accumulation_run = Failed ZeroDivisionError st /\
    global_step st = 1 /\ train_losses st = [0.5%float] /\
    trace st
    = trace initial_state
        ++ map (pair 1)
             (forward_calls (C := Demo.falling_world) b 0.5%float
                ++ [EBackward 0.5%float]).
Proof.
  assert (H : In (1, EBackward (D := Demo.data) 0.5%float)
                 (trace (final zero_accumulation_run))) by pick.
  split; [reflexivity|]. split; [exact H|].
  exact (proj2 (@train_zero_accumulation_steps
                  Demo.data Demo.falling_world Edge.zero_accumulation_args tt
                  (Demo.train_set Demo.falling_world
                                  Edge.zero_accumulation_args)
                  (Demo.dev_set Demo.falling_world
                                Edge.zero_accumulation_args)
                  [] 1 0.5%float eq_refl H)).
Defined.

(** With a zero evaluation period the first iteration fails after its
    optimizer step. *)
Lemma train_zero_eval_period_witness :
  Args.eval_period Edge.zero_period_args = 0 /\
  Args.gradient_accumulation_steps Edge.zero_period_args <> 0 /\
  In (1, EBackward (D := Demo.data) 0.5%float)
     (trace (final zero_period_run)) /\
  exists st b,
    zero_period_run = Failed ZeroDivisionError st /\
    global_step st = 1 /\
    trace st
    = trace initial_state
        ++ map (pair 1)
             (forward_calls (C := Demo.falling_world) b 0.5%float
                ++ [EBackward 0.5%float]
                ++ update_calls (D := Demo.data) Edge.zero_period_args 1) /\
    never_evaluated (trace st).
Proof.
  assert (H : In (1, EBackward (D := Demo.data) 0.5%float)
                 (trace (final zero_period_run))) by pick.
  assert (Hnz : Args.gradient_accumulation_steps Edge.zero_period_args <> 0)
    by (cbn; lia).
  split; [reflexivity|]. split; [exact Hnz|]. split; [exact H|].
  exact (proj2 (@train_zero_eval_period
                  Demo.data Demo.falling_world Edge.zero_period_args tt
                  (Demo.train_set Demo.falling_world Edge.zero_period_args)
                  (Demo.dev_set Demo.falling_world Edge.zero_period_args)
                  [] 1 0.5%float eq_refl Hnz H)).
Defined.

(** With two GPUs and a model without [module], the first evaluation
    fails right after [model.eval()]. *)
Lemma train_missing_module_witness :
  eval_model (C := Demo.falling_world) Edge.two_gpu_args tt = None /\
  In (1, EModelEval (D := Demo.data)) (trace (final two_gpu_run)) /\
  exists st pre,
    two_gpu_run = Failed (AttributeError "module") st /\
    global_step st = 1 /\
    trace st = pre ++ [(1, EModelEval)] /\
    never_evaluated (trace st) /\ never_saved (trace st).
Proof.
  assert (H : In (1, EModelEval (D := Demo.data))
                 (trace (final two_gpu_run))) by pick.
  split; [reflexivity|]. split; [exact H|].
  exact (proj2 (@train_missing_module
                  Demo.data Demo.falling_world Edge.two_gpu_args tt
                  (Demo.train_set Demo.falling_world Edge.two_gpu_args)
                  (Demo.dev_set Demo.falling_world Edge.two_gpu_args)
                  [] 1 eq_refl H)).
Defined.

(** The falling run makes three backward passes and, with two
    accumulation steps, one optimizer step. *)
Lemma train_optimizer_steps_witness :
  let tr := trace (final falling_run) in
  Args.gradient_accumulation_steps Demo.falling_args <> 0 /\
  count_calls is_backward tr = 3 /\
  count_calls is_optimizer_step tr
  = count_calls is_backward tr
    / Z.abs (Args.gradient_accumulation_steps Demo.falling_args).
Proof.
  cbv zeta.
  assert (Hnz : Args.gradient_accumulation_steps Demo.falling_args <> 0)
    by (cbn; lia).
  split; [exact Hnz|]. split; [vm_compute; reflexivity|].
  exact (proj1 (@train_optimizer_steps
                  Demo.data Demo.falling_world Demo.falling_args tt
                  (Demo.train_set Demo.falling_world Demo.falling_args)
                  (Demo.dev_set Demo.falling_world Demo.falling_args)
                  [] Hnz)).
Defined.

(** The run without accumulation steps fails by the remainder of line
    72, at step 1. *)
Lemma train_failure_causes_witness :
  let st := final zero_accumulation_run in
  zero_accumulation_run = Failed ZeroDivisionError st /\
  (Args.gradient_accumulation_steps Edge.zero_accumulation_args = 0 \/
   Args.eval_period Edge.zero_accumulation_args = 0) /\
  global_step st = 1.
Proof.
  cbv zeta.
  assert (H : zero_accumulation_run
              = Failed ZeroDivisionError (final zero_accumulation_run))
    by (vm_compute; reflexivity).
  split; [exact H|].
  exact (proj1 (@train_failure_causes
                  Demo.data Demo.falling_world Edge.zero_accumulation_args tt
                  (Demo.train_set Demo.falling_world
                                  Edge.zero_accumulation_args)
                  (Demo.dev_set Demo.falling_world
                                Edge.zero_accumulation_args)
                  []) _ H).
Defined.

(** [train] as [run] calls it without accumulation steps, after the
    setup calls and the two calls that build the optimizer and the
    schedule. *)
Abbreviation zero_accumulation_training :=
  (train (C := Demo.falling_world) Edge.zero_accumulation_args tt
         (Demo.train_set Demo.falling_world Edge.zero_accumulation_args)
         (Demo.dev_set Demo.falling_world Edge.zero_accumulation_args)
         (setup_calls (C := Demo.falling_world) Edge.zero_accumulation_args
            ++ [ENewAdamW
                  (optimizer_grouped_parameters
                     (C := Demo.falling_world)
                     Edge.zero_accumulation_args tt)
                  (Args.learning_rate Edge.zero_accumulation_args)
                  (Args.adam_epsilon Edge.zero_accumulation_args);
                ENewLinearSchedule
                  (Args.warmup_steps Edge.zero_accumulation_args) 100000])).

(** [run] without accumulation steps fails in training and, although
    [do_predict] is set, logs no checkpoint to load. *)
Lemma run_training_failure_witness :
  let r := run (C := Demo.falling_world) Edge.zero_accumulation_args in
  Args.do_train Edge.zero_accumulation_args = true /\
  Args.do_predict Edge.zero_accumulation_args = true /\
  zero_accumulation_training
  = Failed ZeroDivisionError (final zero_accumulation_training) /\
  r = RunFailed ZeroDivisionError (calls r) /\
  (forall path, ~ In (ELoggerInfo (LogLoadingCheckpoint path)) (calls r)) /\
  (forall m t s, ~ In (ELoggerInfo (LogResult m t s)) (calls r)).
Proof.
  cbv zeta.
  assert (H : zero_accumulation_training
              = Failed ZeroDivisionError (final zero_accumulation_training))
    by (vm_compute; reflexivity).
  split; [reflexivity|]. split; [reflexivity|]. split; [exact H|].
  destruct (@run_training_failure
              Demo.data Demo.falling_world Edge.zero_accumulation_args
              ZeroDivisionError _ eq_refl H) as (Hrun & Hl & Hr).
  split; [|split; [exact Hl|exact Hr]].
  rewrite Hrun. reflexivity.
Defined.

(** Prediction only, in the falling world: the calls are those of the
    setup and of the prediction, none of training. *)
Lemma run_without_training_witness :
  Args.do_train Edge.predict_args = false /\
  exists rest,
    run (C := Demo.falling_world) Edge.predict_args
    = RunReturned (setup_calls (C := Demo.falling_world) Edge.predict_args
                     ++ rest) /\
    Forall (fun e => is_training_call e = false)
           (setup_calls (C := Demo.falling_world) Edge.predict_args
              ++ rest) /\
    (Args.do_predict Edge.predict_args = false -> rest = []).
Proof.
  split; [reflexivity|].
  exact (@run_without_training
           Demo.data Demo.falling_world Edge.predict_args eq_refl).
Defined.
